(** * Ray data structures of [mattport/structures/rays.py]

    A shallow embedding of [RaySamples], [RayBundle] and [CameraRayBundle],
    and the properties of their operations.

    Representation.
    - A floating point entry of a tensor is a real number ([R]); [torch.exp]
      is [exp] and the 2-norm is [sqrt] of the sum of squares.  Rounding is
      not represented.
    - An entry of a [long] tensor (a camera index) is an integer ([Z]) of
      the signed 64-bit range; arithmetic on such entries wraps around.
    - A trailing dimension that the annotations fix ([3] for points and
      directions, [1] for the density channel) is a record ([vec3], [vec1]).
    - The remaining dimensions are nested lists: a tensor of shape [n; m] is
      a list of [n] rows of length [m].  A tensor with no row does not record
      [m].
    - A field that may hold [None] is an [option].
    - A Python exception is a [Raise] in the [result] type.
    - Devices and the memory layout of a tensor (strides, contiguity) are
      not represented.
    - The list that [random.sample] draws is an argument of [sample]. *)

From Stdlib Require Import Reals Lra List ZArith Lia Bool PeanoNat Permutation.
Import ListNotations.

(** ** Exceptions *)

Inductive exn : Type :=
| AssertionError
| ValueError
| TypeError
| IndexError
| RuntimeError
| OverflowError.

Inductive result (A : Type) : Type :=
| Ok (a : A)
| Raise (e : exn).

Arguments Ok {A} a.
Arguments Raise {A} e.

Definition bind {A B : Type} (m : result A) (k : A -> result B) : result B :=
  match m with
  | Ok a => k a
  | Raise e => Raise e
  end.

Declare Scope result_scope.
Delimit Scope result_scope with result.
Notation "'let*' x ':=' m 'in' k" := (bind m (fun x => k))
  (at level 10, x name, m at level 100, k at level 200) : result_scope.

Local Open Scope result_scope.

(** Evaluates the elements in order and stops at the first that raises. *)
Fixpoint sequence {A : Type} (l : list (result A)) : result (list A) :=
  match l with
  | [] => Ok []
  | m :: rest =>
      let* a := m in
      let* r := sequence rest in
      Ok (a :: r)
  end.

(** ** Three-component points and directions *)

Local Open Scope R_scope.

Record vec3 : Type := mkVec3 { vx : R; vy : R; vz : R }.

Record vec1 : Type := mkVec1 { c0 : R }.

Definition vzero : vec3 := mkVec3 0 0 0.

Definition vadd (a b : vec3) : vec3 :=
  mkVec3 (vx a + vx b) (vy a + vy b) (vz a + vz b).

(** [t * d] for a scalar [t] broadcast over the coordinates of [d]. *)
Definition vscale (t : R) (d : vec3) : vec3 :=
  mkVec3 (t * vx d) (t * vy d) (t * vz d).

(** [torch.norm(_, dim=-1)] on a row of three coordinates. *)
Definition vnorm (d : vec3) : R :=
  sqrt (vx d * vx d + vy d * vy d + vz d * vz d).

(** ** Tensor operations *)

Section Tensor.
Context {A B C : Type}.

(** Elementwise combination of two lists of the same length. *)
Fixpoint map2 (f : A -> B -> C) (la : list A) (lb : list B) : list C :=
  match la, lb with
  | a :: la', b :: lb' => f a b :: map2 f la' lb'
  | _, _ => []
  end.

(** Broadcasting along one dimension: sizes must agree, or one of them is
    1 and its only element is repeated; anything else raises. *)
Definition broadcast (f : A -> B -> C) (la : list A) (lb : list B)
  : result (list C) :=
  if Nat.eqb (length la) (length lb) then Ok (map2 f la lb)
  else match la, lb with
       | [a], _ => Ok (map (f a) lb)
       | _, [b] => Ok (map (fun a => f a b) la)
       | _, _ => Raise RuntimeError
       end.

End Tensor.

(** Broadcasting an elementwise operation over both dimensions of two
    rank-2 tensors. *)
Definition broadcast2 {A B C : Type} (f : A -> B -> C)
    (ta : list (list A)) (tb : list (list B)) : result (list (list C)) :=
  let* rows := broadcast (fun ra rb => broadcast f ra rb) ta tb in
  sequence rows.

(** Size of the second dimension, read on the first row. *)
Definition shape1 {A : Type} (t : list (list A)) : nat :=
  match t with
  | [] => 0%nat
  | row :: _ => length row
  end.

(** [t[..., -1:]] on one row: the last element as a row of length one, and
    the empty row when there is none. *)
Definition last1 {A : Type} (row : list A) : list A :=
  skipn (length row - 1) row.

(** [torch.cumsum] on one row: running totals from the left. *)
Fixpoint cumsum_from (acc : R) (row : list R) : list R :=
  match row with
  | [] => []
  | x :: rest => (acc + x) :: cumsum_from (acc + x) rest
  end.

Definition cumsum (row : list R) : list R := cumsum_from 0 row.

(** [t[idx]] for a Python list of row numbers. *)
Definition gather {A : Type} (t : list A) (idx : list nat) : result (list A) :=
  sequence (map (fun i => match nth_error t i with
                          | Some a => Ok a
                          | None => Raise IndexError
                          end) idx).

(** Rows of [t] kept by a boolean mask of the same length. *)
Fixpoint select {A : Type} (t : list A) (mask : list bool) : list A :=
  match t, mask with
  | a :: t', m :: mask' => if m then a :: select t' mask' else select t' mask'
  | _, _ => []
  end.

(** [t[mask]] for a boolean mask over the first dimension; the mask must
    have as many entries as [t] has rows. *)
Definition masked {A : Type} (t : list A) (mask : list bool) : result (list A) :=
  if Nat.eqb (length t) (length mask) then Ok (select t mask)
  else Raise IndexError.

(** A field used as a tensor: subscripting [None], or arithmetic on it,
    raises. *)
Definition as_tensor {A : Type} (field : option A) : result A :=
  match field with
  | Some t => Ok t
  | None => Raise TypeError
  end.

(** [t.view(-1, 3)] on a grid of shape [h; w; 3]: the rows one after the
    other. *)
Definition flatten {A : Type} (grid : list (list A)) : list A := concat grid.

(** [h] consecutive rows of length [w]. *)
Fixpoint chunks {A : Type} (h w : nat) (t : list A) : list (list A) :=
  match h with
  | O => []
  | S h' => firstn w t :: chunks h' w (skipn w t)
  end.

(** [t.view(h, w, ...)] on [t] of shape [n; ...]: raises unless
    [n = h * w].  The sizes are natural numbers; the [-1] convention for an
    inferred size is not represented. *)
Definition view {A : Type} (h w : nat) (t : list A) : result (list (list A)) :=
  if Nat.eqb (length t) (h * w) then Ok (chunks h w t)
  else Raise RuntimeError.

(** Python slice bounds [start:stop] on a sequence of [n] elements: negative
    bounds count from the end and every bound is clamped to [0, n]. *)
Definition clamp (n : nat) (i : Z) : nat :=
  Z.to_nat (Z.min (Z.of_nat n) (if (i <? 0)%Z then Z.max 0 (i + Z.of_nat n) else i)).

Definition slice {A : Type} (t : list A) (start stop : Z) : list A :=
  let a := clamp (length t) start in
  let b := clamp (length t) stop in
  firstn (b - a) (skipn a t).

(** Modelled from the spec: [is_not_none] of [mattport.utils.misc], which
    is imported by the source file and not part of it.  The spec describes
    the optional fields as defaulting to an absent marker that the methods
    test before use; the test is true exactly on a present field. *)
Definition is_not_none {A : Type} (field : option A) : bool :=
  match field with
  | Some _ => true
  | None => false
  end.

(** ** The data classes *)

Module PointSamples.
Record t : Type := mk {
    positions : option (list (list vec3));
    directions : option (list (list vec3));
    camera_indices : option (list (list Z));
    valid_mask : option (list (list bool))
}.
End PointSamples.

Module RaySamples.
Record t : Type := mk {
    positions : option (list (list vec3));
    directions : option (list (list vec3));
    camera_indices : option (list (list Z));
    valid_mask : option (list (list bool));
    ts : option (list (list R));
    deltas : option (list (list R))
}.
End RaySamples.

Module RayBundle.
Record t : Type := mk {
    origins : list vec3;
    directions : list vec3;
    camera_indices : option (list Z);
    nears : option (list R);
    fars : option (list R);
    valid_mask : option (list bool)
}.
End RayBundle.

Module CameraRayBundle.
Record t : Type := mk {
    origins : list (list vec3);
    directions : list (list vec3);
    camera_indices : option (list (list Z));
    camera_index : option Z
}.
End CameraRayBundle.

(** ** RaySamples *)

Definition to_point_samples (self : RaySamples.t) : PointSamples.t :=
  PointSamples.mk (RaySamples.positions self) (RaySamples.directions self)
                  None (RaySamples.valid_mask self).

Definition get_weights (self : RaySamples.t) (densities : list (list vec1))
  : result (list (list R)) :=
  let* deltas := as_tensor (RaySamples.deltas self) in
  let* delta_density := broadcast2 Rmult deltas (map (map c0) densities) in
  let alphas := map (map (fun x => 1 - exp (- x))) delta_density in
  let transmittance := map (fun row => cumsum (removelast row)) delta_density in
  let transmittance := map (fun row => 0 :: row) transmittance in
  let transmittance := map (map (fun x => exp (- x))) transmittance in
  broadcast2 Rmult alphas transmittance.

Definition set_valid_mask (self : RaySamples.t) (valid_mask : list (list bool))
  : RaySamples.t :=
  RaySamples.mk (RaySamples.positions self) (RaySamples.directions self)
                (RaySamples.camera_indices self) (Some valid_mask)
                (RaySamples.ts self) (RaySamples.deltas self).

(** ** CameraRayBundle *)

(** Arithmetic on entries of a [long] tensor wraps around in the signed
    64-bit range. *)
Definition wrap64 (z : Z) : Z :=
  ((z + 2 ^ 63) mod 2 ^ 64 - 2 ^ 63)%Z.

(** A Python integer as the scalar operand of a [long] tensor: a value of
    the signed 64-bit range is taken as it is, a value of the unsigned
    64-bit range above it is read modulo [2 ^ 64], and any other value
    raises. *)
Definition long_scalar (c : Z) : result Z :=
  if ((- 2 ^ 63 <=? c) && (c <? 2 ^ 63))%Z then Ok c
  else if ((2 ^ 63 <=? c) && (c <? 2 ^ 64))%Z then Ok (c - 2 ^ 64)%Z
  else Raise OverflowError.

(** [set_camera_indices] assigns to [self]: the value is the object after
    the call together with the outcome of the call.  The scalar is stored
    first; when the product that builds the grid raises, the object is left
    with the new scalar and the grid it had. *)
Definition set_camera_indices (self : CameraRayBundle.t) (camera_index : Z)
  : CameraRayBundle.t * result unit :=
  let self :=
    CameraRayBundle.mk
      (CameraRayBundle.origins self)
      (CameraRayBundle.directions self)
      (CameraRayBundle.camera_indices self)
      (Some camera_index) in
  match long_scalar camera_index with
  | Ok scalar =>
      (CameraRayBundle.mk
         (CameraRayBundle.origins self)
         (CameraRayBundle.directions self)
         (Some (map (map (fun _ => wrap64 (1 * scalar))) (CameraRayBundle.origins self)))
         (CameraRayBundle.camera_index self),
       Ok tt)
  | Raise e => (self, Raise e)
  end.

Definition post_init (self : CameraRayBundle.t) : CameraRayBundle.t * result unit :=
  match CameraRayBundle.camera_index self with
  | Some camera_index => set_camera_indices self camera_index
  | None => (self, Ok tt)
  end.

(** The constructor the dataclass generates: the fields are stored and
    [__post_init__] runs; when that raises, no object is returned. *)
Definition new_CameraRayBundle (origins directions : list (list vec3))
    (camera_indices : option (list (list Z))) (camera_index : option Z)
  : result CameraRayBundle.t :=
  let (self, outcome) :=
    post_init (CameraRayBundle.mk origins directions camera_indices camera_index) in
  let* _ := outcome in
  Ok self.

Definition get_num_rays (self : CameraRayBundle.t) : nat :=
  (length (CameraRayBundle.origins self) * shape1 (CameraRayBundle.origins self))%nat.

Definition to_ray_bundle (self : CameraRayBundle.t) : RayBundle.t :=
  RayBundle.mk (flatten (CameraRayBundle.origins self))
               (flatten (CameraRayBundle.directions self))
               None None None None.

Definition get_row_major_sliced_ray_bundle (self : CameraRayBundle.t)
    (start_idx end_idx : Z) : RayBundle.t :=
  let camera_indices :=
    match CameraRayBundle.camera_indices self with
    | Some grid => Some (slice (flatten grid) start_idx end_idx)
    | None => None
    end in
  RayBundle.mk (slice (flatten (CameraRayBundle.origins self)) start_idx end_idx)
               (slice (flatten (CameraRayBundle.directions self)) start_idx end_idx)
               camera_indices None None None.

(** ** RayBundle *)

Definition to_camera_ray_bundle (self : RayBundle.t)
    (image_height image_width : nat) : result CameraRayBundle.t :=
  let* origins := view image_height image_width (RayBundle.origins self) in
  let* directions := view image_height image_width (RayBundle.directions self) in
  let* camera_indices :=
    match RayBundle.camera_indices self with
    | Some t => let* grid := view image_height image_width t in Ok (Some grid)
    | None => Ok None
    end in
  new_CameraRayBundle origins directions camera_indices None.

Definition len (self : RayBundle.t) : Z :=
  Z.of_nat (length (RayBundle.origins self)).

(** What [random.sample(range(n), k)] promises of the list it returns, for
    [0 <= k <= n]: [k] pairwise distinct elements of [range(n)]. *)
Definition random_sample_ok (n k : Z) (indices : list nat) : Prop :=
  Z.of_nat (length indices) = k /\
  NoDup indices /\
  Forall (fun i => (Z.of_nat i < n)%Z) indices.

(** [sample], with the list that [random.sample] draws as an argument.
    [random.sample] raises on a negative [k]; the assertion has already
    excluded a [k] above the population. *)
Definition sample (indices : list nat) (self : RayBundle.t) (num_rays : Z)
  : result RayBundle.t :=
  if (num_rays <=? len self)%Z then
    if (num_rays <? 0)%Z then Raise ValueError
    else
      let* origins := gather (RayBundle.origins self) indices in
      let* directions := gather (RayBundle.directions self) indices in
      let* camera_indices :=
        (let* t := as_tensor (RayBundle.camera_indices self) in gather t indices) in
      Ok (RayBundle.mk origins directions (Some camera_indices) None None None)
  else Raise AssertionError.

(** [field[valid_mask] if is_not_none(field) else None]. *)
Definition masked_field {A : Type} (field : option (list A)) (valid_mask : list bool)
  : result (option (list A)) :=
  if is_not_none field then
    let* t := as_tensor field in
    let* r := masked t valid_mask in
    Ok (Some r)
  else Ok None.

Definition get_masked_ray_bundle (self : RayBundle.t) (valid_mask : list bool)
  : result RayBundle.t :=
  let* origins := masked (RayBundle.origins self) valid_mask in
  let* directions := masked (RayBundle.directions self) valid_mask in
  let* camera_indices := masked_field (RayBundle.camera_indices self) valid_mask in
  let* nears := masked_field (RayBundle.nears self) valid_mask in
  let* fars := masked_field (RayBundle.fars self) valid_mask in
  let* valid := masked_field (RayBundle.valid_mask self) valid_mask in
  Ok (RayBundle.mk origins directions camera_indices nears fars valid).

Definition get_ray_samples (self : RayBundle.t) (ts : list (list R))
  : result RaySamples.t :=
  let* scaled :=
    broadcast (fun row d => map (fun t => vscale t d) row)
              ts (RayBundle.directions self) in
  let* positions :=
    broadcast (fun o row => map (vadd o) row) (RayBundle.origins self) scaled in
  let directions :=
    map (fun d => repeat d (shape1 positions)) (RayBundle.directions self) in
  let valid_mask := map (map (fun _ => true)) ts in
  let dists := map (fun row => map2 Rminus (tl row) (removelast row)) ts in
  let dists := map (fun row => row ++ last1 row) dists in
  let* deltas :=
    broadcast (fun row n => map (fun x => x * n) row)
              dists (map vnorm (RayBundle.directions self)) in
  let camera_indices :=
    match RayBundle.camera_indices self with
    | Some t => Some (map (fun c => repeat c (shape1 positions)) t)
    | None => None
    end in
  Ok (RaySamples.mk (Some positions) (Some directions) camera_indices
                    (Some valid_mask) (Some ts) (Some deltas)).

(** ** Shapes and entries, for the statements *)

(** [t] has [n] rows of length [m]. *)
Definition shape2 {A : Type} (n m : nat) (t : list (list A)) : Prop :=
  length t = n /\ Forall (fun row => length row = m) t.

(** The entry of row [r] and column [i]. *)
Definition entry {A : Type} (d : A) (t : list (list A)) (r i : nat) : A :=
  nth i (nth r t []) d.

(** The sum of [f j] over [j < i]. *)
Fixpoint sum_below (i : nat) (f : nat -> R) : R :=
  match i with
  | O => 0
  | S j => sum_below j f + f j
  end.

(** The density of sample [i] of ray [r]: the only channel of the entry. *)
Definition density (densities : list (list vec1)) (r i : nat) : R :=
  c0 (entry (mkVec1 0) densities r i).

(** The rows of [t] at the positions where [mask] is true, in order. *)
Definition rows_where {A : Type} (d : A) (mask : list bool) (t : list A) : list A :=
  map (fun i => nth i t d)
      (filter (fun i => nth i mask false) (seq 0 (length t))).

(** An optional per-ray field, when present, has [n] rows. *)
Definition field_rows {A : Type} (n : nat) (field : option (list A)) : Prop :=
  match field with
  | Some t => length t = n
  | None => True
  end.

(** The invariant of a [RayBundle] of [n] rays. *)
Definition bundle_rows (n : nat) (b : RayBundle.t) : Prop :=
  length (RayBundle.origins b) = n /\
  length (RayBundle.directions b) = n /\
  field_rows n (RayBundle.camera_indices b) /\
  field_rows n (RayBundle.nears b) /\
  field_rows n (RayBundle.fars b) /\
  field_rows n (RayBundle.valid_mask b).

(** The camera of a [CameraRayBundle] of [h] by [w] pixels is [c]: the
    scalar holds [c] and the grid is [h] by [w] with [c] everywhere. *)
Definition camera_is (h w : nat) (c : Z) (b : CameraRayBundle.t) : Prop :=
  CameraRayBundle.camera_index b = Some c /\
  exists grid,
    CameraRayBundle.camera_indices b = Some grid /\
    shape2 h w grid /\
    forall i j, (i < h)%nat -> (j < w)%nat -> entry 0%Z grid i j = c.

(** The signed 64-bit range. *)
Definition in_int64 (c : Z) : Prop := (- 2 ^ 63 <= c < 2 ^ 63)%Z.

(** ** Sample inputs *)

(** One ray from the origin along the first axis, sampled at 0, 1 and 2. *)
Definition unit_ray : RayBundle.t :=
  RayBundle.mk [vzero] [mkVec3 1 0 0] None None None None.

Definition unit_ray_ts : list (list R) := [[0; 1; 2]].

(** Two rays with camera indices and near bounds, without far bounds or
    validity. *)
Definition two_rays : RayBundle.t :=
  RayBundle.mk [vzero; mkVec3 0 0 1] [mkVec3 1 0 0; mkVec3 0 1 0]
               (Some [7%Z; 8%Z]) (Some [0; 1]) None None.

(** The same two rays with no optional field. *)
Definition two_bare_rays : RayBundle.t :=
  RayBundle.mk [vzero; mkVec3 0 0 1] [mkVec3 1 0 0; mkVec3 0 1 0]
               None None None None.

(** An image of 2 by 3 pixels seen from camera 4. *)
Definition image_2_3 : CameraRayBundle.t :=
  CameraRayBundle.mk
    [[vzero; vzero; vzero]; [vzero; vzero; vzero]]
    [[mkVec3 1 0 0; mkVec3 0 1 0; mkVec3 0 0 1];
     [mkVec3 1 1 0; mkVec3 0 1 1; mkVec3 1 0 1]]
    (Some [[4%Z; 4%Z; 4%Z]; [4%Z; 4%Z; 4%Z]]) (Some 4%Z).

(** The ray of [unit_ray], and a ray from (1, 2, 3) along (3, 4, 0), whose
    direction has norm 5; both sampled at 0, 1 and 2. *)
Definition offset_rays : RayBundle.t :=
  RayBundle.mk [vzero; mkVec3 1 2 3] [mkVec3 1 0 0; mkVec3 3 4 0]
               None None None None.

Definition offset_rays_ts : list (list R) := [[0; 1; 2]; [0; 1; 2]].

(** One ray with a single sample of width 2. *)
Definition single_sample : RaySamples.t :=
  RaySamples.mk None None None None (Some [[5]]) (Some [[2]]).

(** One ray with two samples of widths 1 and 2, the second one in empty
    space. *)
Definition two_samples : RaySamples.t :=
  RaySamples.mk None None None None (Some [[0; 1]]) (Some [[1; 2]]).

Definition two_densities : list (list vec1) := [[mkVec1 3; mkVec1 0]].

(** ** Lists *)

Lemma map2_length {A B C : Type} (f : A -> B -> C) (la : list A) (lb : list B) :
  length (map2 f la lb) = Nat.min (length la) (length lb).
Proof.
  revert lb; induction la as [|a la IH]; intros [|b lb]; simpl; auto.
Qed.

Lemma map2_nth {A B C : Type} (f : A -> B -> C) (da : A) (db : B) (dc : C) :
  forall (la : list A) (lb : list B) (i : nat),
    (i < length la)%nat -> (i < length lb)%nat ->
    nth i (map2 f la lb) dc = f (nth i la da) (nth i lb db).
Proof.
  induction la as [|a la IH]; intros [|b lb] [|i]; simpl; intros Ha Hb;
    try lia; auto.
  apply IH; lia.
Qed.

Lemma map2_map_same {A B C D : Type} (f : B -> C -> D) (g : A -> B) (h : A -> C)
    (l : list A) :
  map2 f (map g l) (map h l) = map (fun a => f (g a) (h a)) l.
Proof.
  induction l as [|a l IH]; simpl; congruence.
Qed.

Lemma broadcast_same_length {A B C : Type} (f : A -> B -> C) (la : list A) (lb : list B) :
  length la = length lb -> broadcast f la lb = Ok (map2 f la lb).
Proof.
  intros H. unfold broadcast. now rewrite H, Nat.eqb_refl.
Qed.

Lemma sequence_map_Ok {A B : Type} (f : A -> result B) (g : A -> B) (l : list A) :
  Forall (fun a => f a = Ok (g a)) l ->
  sequence (map f l) = Ok (map g l).
Proof.
  induction 1 as [|a l Ha _ IH]; simpl; auto.
  now rewrite Ha, IH.
Qed.

Lemma sequence_map2_Ok {A B C : Type} (f : A -> B -> result C) (g : A -> B -> C) :
  forall (la : list A) (lb : list B),
    (forall a b, In a la -> In b lb -> f a b = Ok (g a b)) ->
    sequence (map2 f la lb) = Ok (map2 g la lb).
Proof.
  induction la as [|a la IH]; intros [|b lb] H; simpl; auto.
  rewrite H by (simpl; auto). simpl.
  rewrite IH by (intros; apply H; simpl; auto). reflexivity.
Qed.

Lemma shape2_row {A : Type} (n m : nat) (t : list (list A)) (row : list A) :
  shape2 n m t -> In row t -> length row = m.
Proof.
  intros [_ H] Hin. rewrite Forall_forall in H. auto.
Qed.

Lemma shape2_nth {A : Type} (n m : nat) (t : list (list A)) (r : nat) :
  shape2 n m t -> (r < n)%nat -> length (nth r t []) = m.
Proof.
  intros H Hr. apply (shape2_row n m t _ H). apply nth_In. destruct H; lia.
Qed.

Lemma shape2_map {A B : Type} (f : list A -> list B) (n m m' : nat) (t : list (list A)) :
  (forall row, length row = m -> length (f row) = m') ->
  shape2 n m t -> shape2 n m' (map f t).
Proof.
  intros Hf [Hn Hm]. split.
  - now rewrite length_map.
  - rewrite Forall_map. eapply Forall_impl; [|exact Hm]. exact Hf.
Qed.

Lemma broadcast2_same_shape {A B C : Type} (f : A -> B -> C) (n m : nat)
    (ta : list (list A)) (tb : list (list B)) :
  shape2 n m ta -> shape2 n m tb ->
  broadcast2 f ta tb = Ok (map2 (map2 f) ta tb).
Proof.
  intros Ha Hb. unfold broadcast2.
  rewrite broadcast_same_length by (destruct Ha, Hb; congruence).
  simpl. apply sequence_map2_Ok.
  intros ra rb Hra Hrb. apply broadcast_same_length.
  rewrite (shape2_row _ _ _ _ Ha Hra), (shape2_row _ _ _ _ Hb Hrb). reflexivity.
Qed.

Lemma shape2_map2 {A B C : Type} (f : A -> B -> C) (n m : nat)
    (ta : list (list A)) (tb : list (list B)) :
  shape2 n m ta -> shape2 n m tb -> shape2 n m (map2 (map2 f) ta tb).
Proof.
  intros [Hn Ha] [Hn' Hb]. split.
  - rewrite map2_length. lia.
  - clear Hn Hn'. revert tb Hb.
    induction Ha as [|ra ta Hra _ IH]; intros tb Hb; [constructor|].
    destruct Hb as [|rb tb Hrb Hb]; simpl; constructor.
    + rewrite map2_length. lia.
    + apply IH, Hb.
Qed.

Lemma entry_map2 {A B C : Type} (f : A -> B -> C) (da : A) (db : B) (dc : C)
    (n m : nat) (ta : list (list A)) (tb : list (list B)) (r i : nat) :
  shape2 n m ta -> shape2 n m tb -> (r < n)%nat -> (i < m)%nat ->
  entry dc (map2 (map2 f) ta tb) r i = f (entry da ta r i) (entry db tb r i).
Proof.
  intros Ha Hb Hr Hi. unfold entry.
  rewrite (map2_nth (map2 f) [] [] []) by (destruct Ha, Hb; lia).
  apply map2_nth.
  - rewrite (shape2_nth _ _ _ _ Ha Hr). exact Hi.
  - rewrite (shape2_nth _ _ _ _ Hb Hr). exact Hi.
Qed.

Lemma entry_map {A B : Type} (f : list A -> list B) (d : B) (t : list (list A)) (r i : nat) :
  f [] = [] ->
  entry d (map f t) r i = nth i (f (nth r t [])) d.
Proof.
  intros Hf. unfold entry. rewrite <- Hf at 1. now rewrite map_nth.
Qed.

(** ** Running sums *)

Lemma sum_below_ext (i : nat) (f g : nat -> R) :
  (forall j, (j < i)%nat -> f j = g j) -> sum_below i f = sum_below i g.
Proof.
  induction i as [|i IH]; simpl; intros H; auto.
  rewrite IH by (intros; apply H; lia). rewrite H by lia. reflexivity.
Qed.

Lemma sum_below_shift (i : nat) (f : nat -> R) :
  sum_below (S i) f = f O + sum_below i (fun j => f (S j)).
Proof.
  induction i as [|i IH].
  - simpl. lra.
  - change (sum_below (S (S i)) f) with (sum_below (S i) f + f (S i)).
    rewrite IH. simpl. lra.
Qed.

Lemma cumsum_from_length (row : list R) :
  forall acc, length (cumsum_from acc row) = length row.
Proof.
  induction row as [|x row IH]; simpl; intros acc; auto.
Qed.

Lemma cumsum_from_nth (row : list R) :
  forall (acc : R) (i : nat),
    (i < length row)%nat ->
    nth i (cumsum_from acc row) 0 = acc + sum_below (S i) (fun j => nth j row 0).
Proof.
  induction row as [|x row IH]; intros acc i Hi; simpl in Hi; [lia|].
  destruct i as [|i].
  - simpl. lra.
  - rewrite sum_below_shift.
    change (nth (S i) (cumsum_from acc (x :: row)) 0)
      with (nth i (cumsum_from (acc + x) row) 0).
    rewrite IH by lia. simpl. lra.
Qed.

Lemma removelast_length {A : Type} (l : list A) :
  length (removelast l) = (length l - 1)%nat.
Proof.
  induction l as [|a [|b l] IH]; simpl in *; auto. lia.
Qed.

Lemma removelast_nth {A : Type} (d : A) (l : list A) :
  forall i, (i + 1 < length l)%nat -> nth i (removelast l) d = nth i l d.
Proof.
  induction l as [|a [|b l] IH]; intros i Hi; simpl in Hi; try lia.
  destruct i as [|i]; [reflexivity|].
  change (nth i (removelast (b :: l)) d = nth i (b :: l) d).
  apply IH. simpl. lia.
Qed.

(** The running total in front of sample [i]: zero, then the cumulative sum
    of the earlier products. *)
Lemma shifted_cumsum_nth (row : list R) (i : nat) :
  (i < length row)%nat ->
  nth i (0 :: cumsum (removelast row)) 0 = sum_below i (fun j => nth j row 0).
Proof.
  intros Hi. destruct i as [|i]; [reflexivity|].
  change (nth i (cumsum (removelast row)) 0 = sum_below (S i) (fun j => nth j row 0)).
  unfold cumsum. rewrite cumsum_from_nth by (rewrite removelast_length; lia).
  rewrite Rplus_0_l. apply sum_below_ext.
  intros j Hj. apply removelast_nth. lia.
Qed.

(** ** get_weights *)

Lemma weights_row_broadcast (row : list R) :
  broadcast Rmult (map (fun x => 1 - exp (- x)) row)
                  (map (fun x => exp (- x)) (0 :: cumsum (removelast row)))
  = Ok (map2 Rmult (map (fun x => 1 - exp (- x)) row)
                   (map (fun x => exp (- x)) (0 :: cumsum (removelast row)))).
Proof.
  destruct (Nat.eq_dec (length row) 0) as [Hrow|Hrow].
  - apply length_zero_iff_nil in Hrow. subst row. reflexivity.
  - apply broadcast_same_length.
    rewrite !length_map. cbn [length]. unfold cumsum.
    rewrite cumsum_from_length, removelast_length. lia.
Qed.

Lemma get_weights_rows (self : RaySamples.t) (deltas : list (list R))
    (densities : list (list vec1)) (n s : nat) :
  RaySamples.deltas self = Some deltas ->
  shape2 n s deltas -> shape2 n s densities ->
  get_weights self densities =
  Ok (map (fun row => map2 Rmult (map (fun x => 1 - exp (- x)) row)
                                 (map (fun x => exp (- x)) (0 :: cumsum (removelast row))))
          (map2 (map2 Rmult) deltas (map (map c0) densities))).
Proof.
  intros Hself Hd Hρ. unfold get_weights. rewrite Hself. simpl.
  rewrite (broadcast2_same_shape Rmult n s)
    by (auto; apply shape2_map with (m := s); auto; intros; now rewrite length_map).
  simpl. unfold broadcast2.
  rewrite broadcast_same_length by (now rewrite !length_map).
  simpl. rewrite !map_map, map2_map_same.
  apply sequence_map_Ok, Forall_forall. intros row _.
  apply weights_row_broadcast.
Qed.

Lemma map_nth_lt {A B : Type} (f : A -> B) (d : A) (d' : B) (l : list A) (i : nat) :
  (i < length l)%nat -> nth i (map f l) d' = f (nth i l d).
Proof.
  intros Hi. rewrite (nth_indep _ d' (f d)) by (now rewrite length_map).
  apply map_nth.
Qed.

Lemma entry_map_map {A B : Type} (f : A -> B) (d : A) (t : list (list A)) (r i : nat) :
  entry (f d) (map (map f) t) r i = f (entry d t r i).
Proof.
  unfold entry. change (@nil B) with (map f []). now rewrite !map_nth.
Qed.

(** The weight of one sample of one row of products [deltas * densities]. *)
Lemma weights_row_nth (row : list R) (i : nat) :
  (i < length row)%nat ->
  nth i (map2 Rmult (map (fun x => 1 - exp (- x)) row)
                    (map (fun x => exp (- x)) (0 :: cumsum (removelast row)))) 0
  = (1 - exp (- nth i row 0)) * exp (- sum_below i (fun j => nth j row 0)).
Proof.
  intros Hi.
  assert (Hlen : length (0 :: cumsum (removelast row)) = length row).
  { cbn [length]. unfold cumsum.
    rewrite cumsum_from_length, removelast_length. lia. }
  rewrite (map2_nth Rmult 0 0 0) by (rewrite length_map; lia).
  rewrite (map_nth_lt _ 0) by lia.
  rewrite (map_nth_lt _ 0) by lia.
  now rewrite shifted_cumsum_nth.
Qed.

(** C1.  On a [RaySamples] whose [deltas] has one row per ray and one
    column per sample, and densities of the same leading shape,
    [get_weights] returns a tensor of that shape whose entry for ray [r] and
    sample [i] is [(1 - exp (- deltas[i] * densities[i]))] times the
    exponential of the negated sum of [deltas[j] * densities[j]] over the
    earlier samples [j < i].  The second factor is 1 for the first sample,
    whose weight is therefore [1 - exp (- deltas[0] * densities[0])]; with a
    single sample per ray this is the whole row. *)
Theorem get_weights_formula (self : RaySamples.t) (deltas : list (list R))
    (densities : list (list vec1)) (n s : nat) :
  RaySamples.deltas self = Some deltas ->
  shape2 n s deltas ->
  shape2 n s densities ->
  exists weights,
    get_weights self densities = Ok weights /\
    shape2 n s weights /\
    (forall r i, (r < n)%nat -> (i < s)%nat ->
       entry 0 weights r i =
       (1 - exp (- (entry 0 deltas r i * density densities r i))) *
       exp (- sum_below i (fun j => entry 0 deltas r j * density densities r j))) /\
    (forall r, (r < n)%nat -> (0 < s)%nat ->
       entry 0 weights r 0 =
       1 - exp (- (entry 0 deltas r 0 * density densities r 0))).
Proof.
  intros Hself Hd Hrho.
  assert (Hc : shape2 n s (map (map c0) densities)).
  { apply shape2_map with (m := s); auto. intros; now rewrite length_map. }
  pose proof (shape2_map2 Rmult n s _ _ Hd Hc) as Hdd.
  assert (Hprod : forall r i, (r < n)%nat -> (i < s)%nat ->
            entry 0 (map2 (map2 Rmult) deltas (map (map c0) densities)) r i
            = entry 0 deltas r i * density densities r i).
  { intros r i Hr Hi.
    rewrite (entry_map2 Rmult 0 0 0 n s) by assumption.
    unfold density. rewrite <- (entry_map_map c0). reflexivity. }
  assert (Hentry : forall r i, (r < n)%nat -> (i < s)%nat ->
            entry 0 (map (fun row => map2 Rmult (map (fun x => 1 - exp (- x)) row)
                       (map (fun x => exp (- x)) (0 :: cumsum (removelast row))))
                       (map2 (map2 Rmult) deltas (map (map c0) densities))) r i =
            (1 - exp (- (entry 0 deltas r i * density densities r i))) *
            exp (- sum_below i (fun j => entry 0 deltas r j * density densities r j))).
  { intros r i Hr Hi.
    rewrite entry_map by reflexivity.
    rewrite weights_row_nth by (rewrite (shape2_nth _ _ _ _ Hdd Hr); exact Hi).
    fold (entry 0 (map2 (map2 Rmult) deltas (map (map c0) densities)) r i).
    rewrite Hprod by assumption.
    do 3 f_equal. apply sum_below_ext. intros j Hj.
    apply (Hprod r j); lia. }
  eexists. split; [eapply get_weights_rows; eassumption|].
  split; [|split].
  - apply shape2_map with (m := s); auto.
    intros row Hrow. rewrite map2_length, !length_map. cbn [length].
    unfold cumsum. rewrite cumsum_from_length, removelast_length. lia.
  - exact Hentry.
  - intros r Hr Hs. rewrite Hentry by assumption. simpl.
    rewrite Ropp_0, exp_0. lra.
Qed.

(** ** Rows without columns *)

Lemma empty_rows_repeat {A : Type} (n : nat) (t : list (list A)) :
  shape2 n 0 t -> t = repeat [] n.
Proof.
  intros [Hn H0]. subst n.
  induction H0 as [|row t Hrow _ IH]; simpl; [reflexivity|].
  apply length_zero_iff_nil in Hrow. now rewrite Hrow, <- IH.
Qed.

Lemma map2_const {A B C : Type} (c : C) (n : nat) :
  forall (la : list A) (lb : list B),
    length la = n -> length lb = n ->
    map2 (fun _ _ => c) la lb = repeat c n.
Proof.
  induction n as [|n IH]; intros [|a la] [|b lb] Ha Hb;
    simpl in *; try lia; auto.
  now rewrite (IH la lb) by lia.
Qed.

Lemma broadcast2_rows {A B C : Type} (f : A -> B -> C)
    (g : list A -> list B -> list C) (ta : list (list A)) (tb : list (list B)) :
  length ta = length tb ->
  (forall ra rb, In ra ta -> In rb tb -> broadcast f ra rb = Ok (g ra rb)) ->
  broadcast2 f ta tb = Ok (map2 g ta tb).
Proof.
  intros Hlen Hrows. unfold broadcast2.
  rewrite broadcast_same_length by exact Hlen.
  cbn [bind]. now apply sequence_map2_Ok.
Qed.

Lemma broadcast2_empty_rows {A B C : Type} (f : A -> B -> C) (n : nat)
    (tb : list (list B)) :
  shape2 n 1 tb ->
  broadcast2 f (repeat [] n) tb = Ok (repeat [] n).
Proof.
  intros Hb.
  rewrite (broadcast2_rows f (fun _ _ => [])).
  - rewrite (map2_const [] n); [reflexivity | apply repeat_length | apply Hb].
  - rewrite repeat_length. symmetry. apply Hb.
  - intros ra rb Hra Hrb. apply repeat_spec in Hra. subst ra.
    pose proof (shape2_row n 1 tb rb Hb Hrb) as Hlen.
    destruct rb as [|b [|b' rb]]; simpl in Hlen; try lia. reflexivity.
Qed.

Lemma get_weights_empty_rows (self : RaySamples.t) (densities : list (list vec1))
    (n : nat) :
  RaySamples.deltas self = Some (repeat [] n) ->
  shape2 n 1 densities ->
  get_weights self densities = Ok (repeat [] n).
Proof.
  intros Hself Hrho. unfold get_weights. rewrite Hself. cbn [as_tensor bind].
  rewrite (broadcast2_empty_rows Rmult n)
    by (apply shape2_map with (m := 1%nat); auto; intros; now rewrite length_map).
  cbn [bind]. rewrite !map_repeat. cbn [map removelast cumsum cumsum_from].
  apply broadcast2_empty_rows.
  split; [apply repeat_length|].
  apply Forall_forall. intros row Hrow. apply repeat_spec in Hrow. now subst row.
Qed.

(** ** get_ray_samples *)

Lemma shape2_map2_rows {A B C : Type} (f : A -> B -> list C) (n m : nat) :
  forall (la : list A) (lb : list B),
    length la = n -> length lb = n ->
    (forall a b, In a la -> In b lb -> length (f a b) = m) ->
    shape2 n m (map2 f la lb).
Proof.
  intros la lb Ha Hb Hf. split.
  - rewrite map2_length. lia.
  - clear Ha Hb. revert lb Hf.
    induction la as [|a la IH]; intros [|b lb] Hf; simpl; constructor.
    + apply Hf; simpl; auto.
    + apply IH. intros; apply Hf; simpl; auto.
Qed.

Lemma shape1_shape2 {A : Type} (n m : nat) (t : list (list A)) :
  shape2 n m t -> (0 < n)%nat -> shape1 t = m.
Proof.
  intros [Hn Hm] Hpos. destruct t as [|row t]; simpl in *; [lia|].
  now inversion Hm.
Qed.

Lemma repeat_nth_lt {A : Type} (a d : A) (m i : nat) :
  (i < m)%nat -> nth i (repeat a m) d = a.
Proof.
  revert i; induction m as [|m IH]; intros [|i] Hi; simpl; try lia; auto.
  apply IH; lia.
Qed.

Lemma tl_nth {A : Type} (d : A) (l : list A) (i : nat) :
  nth i (tl l) d = nth (S i) l d.
Proof.
  destruct l; simpl; auto. now destruct i.
Qed.

Lemma tl_length {A : Type} (l : list A) : length (tl l) = (length l - 1)%nat.
Proof.
  destruct l; simpl; lia.
Qed.

Lemma last1_length {A : Type} (l : list A) :
  length (last1 l) = Nat.min 1 (length l).
Proof.
  unfold last1. rewrite length_skipn. lia.
Qed.

Lemma last1_nth {A : Type} (d : A) (l : list A) :
  nth 0 (last1 l) d = nth (length l - 1) l d.
Proof.
  unfold last1. rewrite nth_skipn. f_equal. lia.
Qed.

(** The differences of consecutive entries of one row of [ts]. *)
Lemma differences_length (row : list R) :
  length (map2 Rminus (tl row) (removelast row)) = (length row - 1)%nat.
Proof.
  rewrite map2_length, tl_length, removelast_length. lia.
Qed.

Lemma differences_nth (row : list R) (i : nat) :
  (i + 1 < length row)%nat ->
  nth i (map2 Rminus (tl row) (removelast row)) 0 = nth (S i) row 0 - nth i row 0.
Proof.
  intros Hi.
  rewrite (map2_nth Rminus 0 0 0)
    by (rewrite ?tl_length, ?removelast_length; lia).
  now rewrite tl_nth, removelast_nth.
Qed.

(** The differences followed by a copy of the last of them. *)
Lemma dists_row_length (row : list R) :
  (2 <= length row)%nat ->
  length (map2 Rminus (tl row) (removelast row)
          ++ last1 (map2 Rminus (tl row) (removelast row))) = length row.
Proof.
  intros H. rewrite length_app, last1_length, differences_length. lia.
Qed.

Lemma dists_row_nth (row : list R) (i : nat) :
  (i + 1 < length row)%nat ->
  nth i (map2 Rminus (tl row) (removelast row)
         ++ last1 (map2 Rminus (tl row) (removelast row))) 0
  = nth (S i) row 0 - nth i row 0.
Proof.
  intros Hi. rewrite app_nth1 by (rewrite differences_length; lia).
  now apply differences_nth.
Qed.

Lemma dists_row_last (row : list R) :
  (2 <= length row)%nat ->
  nth (length row - 1)
      (map2 Rminus (tl row) (removelast row)
       ++ last1 (map2 Rminus (tl row) (removelast row))) 0
  = nth (length row - 1) row 0 - nth (length row - 2) row 0.
Proof.
  intros H. rewrite app_nth2 by (rewrite differences_length; lia).
  rewrite differences_length, Nat.sub_diag, last1_nth, differences_length.
  rewrite differences_nth by lia.
  replace (S (length row - 1 - 1)) with (length row - 1)%nat by lia.
  replace (length row - 1 - 1)%nat with (length row - 2)%nat by lia.
  reflexivity.
Qed.

Section RaySamplesOf.
Variable self : RayBundle.t.
Variable ts : list (list R).
Variables n s : nat.
Hypothesis Horigins : length (RayBundle.origins self) = n.
Hypothesis Hdirections : length (RayBundle.directions self) = n.
Hypothesis Hts : shape2 n s ts.

(** The tensors of the source, by name. *)
Let scaled : list (list vec3) :=
  map2 (fun row d => map (fun t => vscale t d) row) ts (RayBundle.directions self).
Let positions : list (list vec3) :=
  map2 (fun o row => map (vadd o) row) (RayBundle.origins self) scaled.
Let dists : list (list R) :=
  map (fun row => row ++ last1 row)
      (map (fun row => map2 Rminus (tl row) (removelast row)) ts).
Let deltas : list (list R) :=
  map2 (fun row n => map (fun x => x * n) row)
       dists (map vnorm (RayBundle.directions self)).

Lemma scaled_shape : shape2 n s scaled.
Proof.
  apply shape2_map2_rows; [apply Hts | assumption |].
  intros row d Hrow _. rewrite length_map. apply (shape2_row n s ts _ Hts Hrow).
Qed.

Lemma positions_shape : shape2 n s positions.
Proof.
  apply shape2_map2_rows; [assumption | apply scaled_shape |].
  intros o row _ Hrow. rewrite length_map.
  apply (shape2_row n s scaled _ scaled_shape Hrow).
Qed.

Lemma get_ray_samples_eval :
  get_ray_samples self ts =
  Ok (RaySamples.mk
        (Some positions)
        (Some (map (fun d => repeat d (shape1 positions)) (RayBundle.directions self)))
        (match RayBundle.camera_indices self with
         | Some t => Some (map (fun c => repeat c (shape1 positions)) t)
         | None => None
         end)
        (Some (map (map (fun _ => true)) ts))
        (Some ts)
        (Some deltas)).
Proof.
  unfold get_ray_samples.
  rewrite broadcast_same_length by (destruct Hts; congruence).
  cbn [bind]. fold scaled.
  rewrite broadcast_same_length by (destruct scaled_shape; congruence).
  cbn [bind]. fold positions.
  rewrite broadcast_same_length
    by (rewrite !length_map; destruct Hts; congruence).
  reflexivity.
Qed.

Lemma positions_entry (r i : nat) :
  (r < n)%nat -> (i < s)%nat ->
  entry vzero positions r i =
  vadd (nth r (RayBundle.origins self) vzero)
       (vscale (entry 0 ts r i) (nth r (RayBundle.directions self) vzero)).
Proof.
  intros Hr Hi. unfold entry, positions.
  rewrite (map2_nth _ vzero [] [])
    by (destruct scaled_shape; lia).
  unfold scaled.
  rewrite (map2_nth _ [] vzero []) by (destruct Hts; lia).
  pose proof (shape2_nth n s ts r Hts Hr) as Hrow.
  cbv beta.
  rewrite (map_nth_lt _ vzero) by (rewrite length_map; lia).
  rewrite (map_nth_lt _ 0) by lia.
  reflexivity.
Qed.

Lemma broadcast_directions_shape :
  shape2 n s (map (fun d => repeat d (shape1 positions)) (RayBundle.directions self)).
Proof.
  split; [now rewrite length_map|].
  rewrite Forall_map, Forall_forall. intros d Hd.
  rewrite repeat_length. apply (shape1_shape2 n s _ positions_shape).
  destruct (RayBundle.directions self); simpl in *; [contradiction | lia].
Qed.

Lemma broadcast_directions_entry (r i : nat) :
  (r < n)%nat -> (i < s)%nat ->
  entry vzero (map (fun d => repeat d (shape1 positions)) (RayBundle.directions self)) r i
  = nth r (RayBundle.directions self) vzero.
Proof.
  intros Hr Hi. unfold entry.
  rewrite (map_nth_lt _ vzero) by lia.
  apply repeat_nth_lt.
  rewrite (shape1_shape2 n s _ positions_shape); lia.
Qed.

Lemma valid_mask_shape : shape2 n s (map (map (fun _ : R => true)) ts).
Proof.
  apply shape2_map with (m := s); [|exact Hts].
  intros row Hrow. now rewrite length_map.
Qed.

Lemma valid_mask_entry (r i : nat) :
  (r < n)%nat -> (i < s)%nat ->
  entry false (map (map (fun _ : R => true)) ts) r i = true.
Proof.
  intros Hr Hi. unfold entry.
  rewrite (map_nth_lt _ []) by (destruct Hts; lia).
  rewrite (map_nth_lt _ 0) by (rewrite (shape2_nth n s ts r Hts Hr); exact Hi).
  reflexivity.
Qed.

Lemma deltas_row (r : nat) :
  (r < n)%nat ->
  nth r deltas [] =
  map (fun x => x * vnorm (nth r (RayBundle.directions self) vzero))
      (map2 Rminus (tl (nth r ts [])) (removelast (nth r ts []))
       ++ last1 (map2 Rminus (tl (nth r ts [])) (removelast (nth r ts [])))).
Proof.
  intros Hr. unfold deltas, dists.
  rewrite (map2_nth _ [] 0 [])
    by (rewrite !length_map; destruct Hts; lia).
  cbv beta. rewrite map_map.
  rewrite (map_nth_lt _ []) by (destruct Hts; lia).
  rewrite (map_nth_lt _ vzero) by lia.
  reflexivity.
Qed.

Lemma deltas_shape : (2 <= s)%nat -> shape2 n s deltas.
Proof.
  intros Hs. apply shape2_map2_rows.
  - unfold dists. rewrite !length_map. apply Hts.
  - now rewrite length_map.
  - intros row nrm Hrow _. rewrite length_map.
    unfold dists in Hrow. rewrite map_map, in_map_iff in Hrow.
    destruct Hrow as [row0 [<- Hin]].
    pose proof (shape2_row n s ts row0 Hts Hin) as Hlen.
    rewrite dists_row_length; lia.
Qed.

Lemma deltas_entry (r i : nat) :
  (r < n)%nat -> (i + 1 < s)%nat ->
  entry 0 deltas r i =
  (entry 0 ts r (i + 1) - entry 0 ts r i)
  * vnorm (nth r (RayBundle.directions self) vzero).
Proof.
  intros Hr Hi. unfold entry. rewrite deltas_row by exact Hr.
  pose proof (shape2_nth n s ts r Hts Hr) as Hrow.
  rewrite (map_nth_lt _ 0) by (rewrite dists_row_length; lia).
  rewrite dists_row_nth by lia.
  now rewrite Nat.add_1_r.
Qed.

Lemma deltas_entry_last (r : nat) :
  (r < n)%nat -> (2 <= s)%nat ->
  entry 0 deltas r (s - 1) =
  (entry 0 ts r (s - 1) - entry 0 ts r (s - 2))
  * vnorm (nth r (RayBundle.directions self) vzero).
Proof.
  intros Hr Hs. unfold entry. rewrite deltas_row by exact Hr.
  pose proof (shape2_nth n s ts r Hts Hr) as Hrow.
  rewrite (map_nth_lt _ 0) by (rewrite dists_row_length; lia).
  rewrite <- Hrow at 1. rewrite dists_row_last by lia.
  now rewrite Hrow.
Qed.

(** C2.  For a bundle of [n] rays and [ts] of shape [n; s],
    [get_ray_samples] returns samples whose position for ray [r] and sample
    [i] is [origins[r] + ts[r,i] * directions[r]], coordinate by coordinate,
    whose direction there is [directions[r]], and whose [valid_mask] has the
    shape of [ts] and is true everywhere. *)
Theorem get_ray_samples_positions :
  exists rs P D V,
    get_ray_samples self ts = Ok rs /\
    RaySamples.positions rs = Some P /\
    RaySamples.directions rs = Some D /\
    RaySamples.valid_mask rs = Some V /\
    shape2 n s P /\ shape2 n s D /\ shape2 n s V /\
    forall r i, (r < n)%nat -> (i < s)%nat ->
      vx (entry vzero P r i) =
        vx (nth r (RayBundle.origins self) vzero)
        + entry 0 ts r i * vx (nth r (RayBundle.directions self) vzero) /\
      vy (entry vzero P r i) =
        vy (nth r (RayBundle.origins self) vzero)
        + entry 0 ts r i * vy (nth r (RayBundle.directions self) vzero) /\
      vz (entry vzero P r i) =
        vz (nth r (RayBundle.origins self) vzero)
        + entry 0 ts r i * vz (nth r (RayBundle.directions self) vzero) /\
      entry vzero D r i = nth r (RayBundle.directions self) vzero /\
      entry false V r i = true.
Proof.
  eexists; do 3 eexists.
  split; [apply get_ray_samples_eval|].
  cbn [RaySamples.positions RaySamples.directions RaySamples.valid_mask].
  repeat (split; [reflexivity|]).
  split; [apply positions_shape|].
  split; [apply broadcast_directions_shape|].
  split; [apply valid_mask_shape|].
  intros r i Hr Hi.
  rewrite (positions_entry r i Hr Hi).
  repeat (split; [reflexivity|]).
  split; [now apply broadcast_directions_entry | now apply valid_mask_entry].
Qed.

(** C3.  With at least two samples per ray, the [deltas] of
    [get_ray_samples] have the shape of [ts]; before the last sample the
    delta is the distance to the next sample times the Euclidean norm of
    the ray's direction, the square root of the sum of the squares of its
    coordinates, and the last delta is the last such distance once more, so
    it equals the delta before it. *)
Theorem get_ray_samples_deltas :
  (2 <= s)%nat ->
  exists rs D,
    get_ray_samples self ts = Ok rs /\
    RaySamples.deltas rs = Some D /\
    shape2 n s D /\
    forall r, (r < n)%nat ->
      let d := nth r (RayBundle.directions self) vzero in
      (forall i, (i + 1 < s)%nat ->
         entry 0 D r i =
         (entry 0 ts r (i + 1) - entry 0 ts r i)
         * sqrt (vx d * vx d + vy d * vy d + vz d * vz d)) /\
      entry 0 D r (s - 1) =
        (entry 0 ts r (s - 1) - entry 0 ts r (s - 2))
        * sqrt (vx d * vx d + vy d * vy d + vz d * vz d) /\
      entry 0 D r (s - 1) = entry 0 D r (s - 2).
Proof.
  intros Hs. do 2 eexists.
  split; [apply get_ray_samples_eval|].
  cbn [RaySamples.deltas].
  split; [reflexivity|].
  split; [now apply deltas_shape|].
  intros r Hr. cbv zeta.
  fold (vnorm (nth r (RayBundle.directions self) vzero)).
  split; [intros i Hi; now apply deltas_entry|].
  split; [now apply deltas_entry_last|].
  rewrite deltas_entry_last by assumption.
  rewrite (deltas_entry r (s - 2)) by lia.
  replace (s - 2 + 1)%nat with (s - 1)%nat by lia. reflexivity.
Qed.

(** X5.  [get_ray_samples] stores [ts] unchanged; camera indices present on
    the bundle are repeated along the samples of their ray, and camera
    indices absent on the bundle are absent on the samples. *)
Theorem get_ray_samples_camera_indices :
  exists rs,
    get_ray_samples self ts = Ok rs /\
    RaySamples.ts rs = Some ts /\
    (RayBundle.camera_indices self = None ->
     RaySamples.camera_indices rs = None) /\
    (forall cams,
       RayBundle.camera_indices self = Some cams ->
       length cams = n ->
       exists C,
         RaySamples.camera_indices rs = Some C /\
         shape2 n s C /\
         forall r i, (r < n)%nat -> (i < s)%nat ->
           entry 0%Z C r i = nth r cams 0%Z).
Proof.
  eexists. split; [apply get_ray_samples_eval|].
  cbn [RaySamples.ts RaySamples.camera_indices].
  split; [reflexivity|]. split.
  - intros ->. reflexivity.
  - intros cams -> Hlen. eexists. split; [reflexivity|]. split.
    + split; [now rewrite length_map|].
      rewrite Forall_map, Forall_forall. intros c Hc.
      rewrite repeat_length. apply (shape1_shape2 n s _ positions_shape).
      destruct cams; simpl in *; [contradiction | lia].
    + intros r i Hr Hi. unfold entry.
      rewrite (map_nth_lt _ 0%Z) by lia.
      apply repeat_nth_lt.
      rewrite (shape1_shape2 n s _ positions_shape); lia.
Qed.

(** X6.  With at least two samples per ray at non-decreasing distances,
    every delta is non-negative. *)
Theorem get_ray_samples_deltas_nonneg :
  (2 <= s)%nat ->
  (forall r i, (r < n)%nat -> (i + 1 < s)%nat ->
     entry 0 ts r i <= entry 0 ts r (i + 1)) ->
  exists rs D,
    get_ray_samples self ts = Ok rs /\
    RaySamples.deltas rs = Some D /\
    forall r i, (r < n)%nat -> (i < s)%nat -> 0 <= entry 0 D r i.
Proof.
  intros Hs Hmono. do 2 eexists.
  split; [apply get_ray_samples_eval|].
  cbn [RaySamples.deltas]. split; [reflexivity|].
  intros r i Hr Hi.
  assert (Hnorm : 0 <= vnorm (nth r (RayBundle.directions self) vzero))
    by apply sqrt_pos.
  destruct (Nat.eq_dec i (s - 1)) as [-> | Hne].
  - rewrite deltas_entry_last by assumption.
    apply Rmult_le_pos; [|exact Hnorm].
    specialize (Hmono r (s - 2)%nat Hr).
    replace (s - 2 + 1)%nat with (s - 1)%nat in Hmono by lia.
    assert (entry 0 ts r (s - 2) <= entry 0 ts r (s - 1)) by (apply Hmono; lia).
    lra.
  - rewrite deltas_entry by lia.
    apply Rmult_le_pos; [|exact Hnorm].
    assert (entry 0 ts r i <= entry 0 ts r (i + 1)) by (apply Hmono; lia).
    lra.
Qed.

Lemma deltas_single_sample : s = 1%nat -> deltas = repeat [] n.
Proof.
  intros Hs. apply empty_rows_repeat.
  apply shape2_map2_rows.
  - unfold dists. rewrite !length_map. apply Hts.
  - now rewrite length_map.
  - intros row nrm Hrow _. rewrite length_map.
    unfold dists in Hrow. rewrite map_map, in_map_iff in Hrow.
    destruct Hrow as [row0 [<- Hin]].
    pose proof (shape2_row n s ts row0 Hts Hin) as Hlen.
    rewrite length_app, last1_length, differences_length. lia.
Qed.

(** X7.  With a single sample per ray there is no interval to measure:
    [get_ray_samples] returns [deltas] with no column, and [get_weights] on
    these samples returns no weight, whatever the densities. *)
Theorem get_ray_samples_single_sample :
  s = 1%nat ->
  exists rs,
    get_ray_samples self ts = Ok rs /\
    RaySamples.deltas rs = Some (repeat [] n) /\
    forall densities,
      shape2 n 1 densities -> get_weights rs densities = Ok (repeat [] n).
Proof.
  intros Hs. eexists. split; [apply get_ray_samples_eval|].
  cbn [RaySamples.deltas]. rewrite (deltas_single_sample Hs).
  split; [reflexivity|].
  intros densities Hrho. now apply get_weights_empty_rows.
Qed.

End RaySamplesOf.

(** ** sample *)

Lemma gather_ok {A : Type} (d : A) (t : list A) (idx : list nat) :
  Forall (fun i => (i < length t)%nat) idx ->
  gather t idx = Ok (map (fun i => nth i t d) idx).
Proof.
  intros H. unfold gather. apply sequence_map_Ok.
  eapply Forall_impl; [|exact H]. cbv beta. intros i Hi.
  destruct (nth_error t i) as [a|] eqn:E.
  - now rewrite (nth_error_nth _ _ d E).
  - apply nth_error_None in E. lia.
Qed.

Lemma random_sample_in_range (self : RayBundle.t) (k : Z) (idx : list nat) (m : nat) :
  random_sample_ok (len self) k idx ->
  m = length (RayBundle.origins self) ->
  Forall (fun i => (i < m)%nat) idx.
Proof.
  intros (_ & _ & H) ->. eapply Forall_impl; [|exact H].
  cbv beta. unfold len. intros i Hi. lia.
Qed.

(** X14.  A negative [num_rays] passes the assertion and is refused by
    [random.sample]: [sample] raises, whatever the bundle. *)
Lemma sample_negative (idx : list nat) (self : RayBundle.t) (k : Z) :
  (k < 0)%Z -> sample idx self k = Raise ValueError.
Proof.
  intros Hk. unfold sample.
  replace (k <=? len self)%Z with true by (unfold len; symmetry; apply Z.leb_le; lia).
  replace (k <? 0)%Z with true by (symmetry; apply Z.ltb_lt; lia).
  reflexivity.
Qed.

(** On a bundle that carries camera indices, [sample] returns the rows of
    the drawn indices: as many as asked for, pairwise distinct, each inside
    the bundle, with origins, directions and camera indices copied from
    those rows; the three other fields are dropped. *)
Lemma sample_with_camera_indices (idx : list nat) (self : RayBundle.t)
    (cams : list Z) (k : Z) :
  RayBundle.camera_indices self = Some cams ->
  length (RayBundle.directions self) = length (RayBundle.origins self) ->
  length cams = length (RayBundle.origins self) ->
  (0 <= k <= len self)%Z ->
  random_sample_ok (len self) k idx ->
  sample idx self k =
    Ok (RayBundle.mk
          (map (fun i => nth i (RayBundle.origins self) vzero) idx)
          (map (fun i => nth i (RayBundle.directions self) vzero) idx)
          (Some (map (fun i => nth i cams 0%Z) idx))
          None None None) /\
  Z.of_nat (length idx) = k /\
  NoDup idx /\
  Forall (fun i => (i < length (RayBundle.origins self))%nat) idx.
Proof.
  intros Hc Hd Hcl Hk Hidx.
  pose proof (random_sample_in_range self k idx _ Hidx eq_refl) as Hin.
  split; [|destruct Hidx as (? & ? & ?); auto].
  unfold sample.
  replace (k <=? len self)%Z with true by (symmetry; apply Z.leb_le; lia).
  replace (k <? 0)%Z with false by (symmetry; apply Z.ltb_ge; lia).
  rewrite (gather_ok vzero) by exact Hin. cbn [bind].
  rewrite (gather_ok vzero) by (rewrite Hd; exact Hin). cbn [bind].
  rewrite Hc. cbn [as_tensor bind].
  rewrite (gather_ok 0%Z) by (rewrite Hcl; exact Hin).
  reflexivity.
Qed.

(** C4, on a bundle without camera indices, as [to_ray_bundle] returns
    them: one ray, one ray asked for, index 0 drawn.  The request is within
    the size of the bundle and the draw is one [random.sample] can make, and
    [sample] raises instead of returning the one-row bundle. *)
Theorem sample_one_ray_without_camera_indices :
  (1 <= len unit_ray)%Z /\
  random_sample_ok (len unit_ray) 1 [0%nat] /\
  sample [0%nat] unit_ray 1 = Raise TypeError.
Proof.
  split; [discriminate|]. split; [|reflexivity].
  split; [reflexivity|]. split.
  - constructor; [simpl; tauto | constructor].
  - repeat constructor.
Qed.

(** C8.  Asking for more rays than the bundle holds fails the assertion:
    [sample] raises and returns no bundle, whatever the random source. *)
Theorem sample_too_many (idx : list nat) (self : RayBundle.t) (num_rays : Z) :
  (num_rays > len self)%Z ->
  sample idx self num_rays = Raise AssertionError.
Proof.
  intros H. unfold sample.
  replace (num_rays <=? len self)%Z with false
    by (symmetry; apply Z.leb_gt; lia).
  reflexivity.
Qed.

(** C10.  On a bundle whose [camera_indices] is absent, [sample] of any
    number of rays up to the size of the bundle raises the error of
    subscripting [None], and returns no bundle. *)
Theorem sample_without_camera_indices (idx : list nat) (self : RayBundle.t) (k : Z) :
  RayBundle.camera_indices self = None ->
  length (RayBundle.directions self) = length (RayBundle.origins self) ->
  (0 <= k <= len self)%Z ->
  random_sample_ok (len self) k idx ->
  sample idx self k = Raise TypeError.
Proof.
  intros Hc Hd Hk Hidx.
  pose proof (random_sample_in_range self k idx _ Hidx eq_refl) as Hin.
  unfold sample.
  replace (k <=? len self)%Z with true by (symmetry; apply Z.leb_le; lia).
  replace (k <? 0)%Z with false by (symmetry; apply Z.ltb_ge; lia).
  rewrite (gather_ok vzero) by exact Hin. cbn [bind].
  rewrite (gather_ok vzero) by (rewrite Hd; exact Hin). cbn [bind].
  rewrite Hc. reflexivity.
Qed.

(** ** get_masked_ray_bundle *)

Lemma filter_seq_shift (f : nat -> bool) (len start : nat) :
  filter f (seq (S start) len) = map S (filter (fun i => f (S i)) (seq start len)).
Proof.
  revert start; induction len as [|len IH]; intros start; simpl; auto.
  rewrite IH. destruct (f (S start)); reflexivity.
Qed.

Lemma select_rows_where {A : Type} (d : A) (t : list A) :
  forall mask, length t = length mask -> select t mask = rows_where d mask t.
Proof.
  unfold rows_where.
  induction t as [|a t IH]; intros [|m mask] Hlen; simpl in Hlen; try lia; auto.
  cbn [select length seq filter nth].
  rewrite filter_seq_shift, (IH mask) by lia.
  destruct m; cbn [map nth]; rewrite map_map; reflexivity.
Qed.

Lemma masked_ok {A : Type} (d : A) (t : list A) (mask : list bool) :
  length t = length mask -> masked t mask = Ok (rows_where d mask t).
Proof.
  intros H. unfold masked. rewrite H, Nat.eqb_refl.
  now rewrite (select_rows_where d) by exact H.
Qed.

Lemma masked_field_ok {A : Type} (d : A) (n : nat) (field : option (list A))
    (mask : list bool) :
  field_rows n field -> length mask = n ->
  masked_field field mask = Ok (option_map (rows_where d mask) field).
Proof.
  intros Hf Hm. destruct field as [t|]; [|reflexivity].
  unfold masked_field. cbn [is_not_none as_tensor bind].
  rewrite (masked_ok d) by (simpl in Hf; congruence).
  reflexivity.
Qed.

(** C5.  On a bundle of [n] rays and a mask with one boolean per ray,
    [get_masked_ray_bundle] returns a bundle in which every field present on
    the original is the original field at the rows where the mask is true,
    and every field absent on the original is absent. *)
Theorem get_masked_ray_bundle_fields (self : RayBundle.t) (valid_mask : list bool)
    (n : nat) :
  bundle_rows n self ->
  length valid_mask = n ->
  exists b,
    get_masked_ray_bundle self valid_mask = Ok b /\
    RayBundle.origins b = rows_where vzero valid_mask (RayBundle.origins self) /\
    RayBundle.directions b = rows_where vzero valid_mask (RayBundle.directions self) /\
    RayBundle.camera_indices b =
      option_map (rows_where 0%Z valid_mask) (RayBundle.camera_indices self) /\
    RayBundle.nears b = option_map (rows_where 0 valid_mask) (RayBundle.nears self) /\
    RayBundle.fars b = option_map (rows_where 0 valid_mask) (RayBundle.fars self) /\
    RayBundle.valid_mask b =
      option_map (rows_where false valid_mask) (RayBundle.valid_mask self).
Proof.
  intros (Ho & Hd & Hc & Hn & Hf & Hv) Hm.
  eexists. split.
  - unfold get_masked_ray_bundle.
    rewrite (masked_ok vzero) by congruence. cbn [bind].
    rewrite (masked_ok vzero) by congruence. cbn [bind].
    rewrite (masked_field_ok 0%Z n) by assumption. cbn [bind].
    rewrite (masked_field_ok 0 n) by assumption. cbn [bind].
    rewrite (masked_field_ok 0 n) by assumption. cbn [bind].
    rewrite (masked_field_ok false n) by assumption. cbn [bind].
    reflexivity.
  - cbn. repeat split; reflexivity.
Qed.

(** ** Flattening and reshaping *)

Lemma firstn_length_app {A : Type} (l r : list A) :
  firstn (length l) (l ++ r) = l.
Proof.
  induction l as [|a l IH]; simpl; [now destruct r | now rewrite IH].
Qed.

Lemma skipn_length_app {A : Type} (l r : list A) :
  skipn (length l) (l ++ r) = r.
Proof.
  induction l as [|a l IH]; simpl; auto.
Qed.

Lemma flatten_length {A : Type} (h w : nat) (grid : list (list A)) :
  shape2 h w grid -> length (flatten grid) = (h * w)%nat.
Proof.
  intros [Hh Hw]. subst h. unfold flatten.
  induction Hw as [|row grid Hrow _ IH]; simpl; auto.
  rewrite length_app, IH, Hrow. reflexivity.
Qed.

Lemma chunks_flatten {A : Type} (h w : nat) (grid : list (list A)) :
  shape2 h w grid -> chunks h w (flatten grid) = grid.
Proof.
  intros [Hh Hw]. subst h. unfold flatten.
  induction Hw as [|row grid Hrow _ IH]; simpl; auto.
  replace (firstn w (row ++ concat grid)) with row
    by (rewrite <- Hrow; symmetry; apply firstn_length_app).
  replace (skipn w (row ++ concat grid)) with (concat grid)
    by (rewrite <- Hrow; symmetry; apply skipn_length_app).
  now rewrite IH.
Qed.

Lemma view_flatten {A : Type} (h w : nat) (grid : list (list A)) :
  shape2 h w grid -> view h w (flatten grid) = Ok grid.
Proof.
  intros H. unfold view.
  rewrite (flatten_length h w) by exact H.
  rewrite Nat.eqb_refl. now rewrite chunks_flatten.
Qed.

(** Row-major order: the ray of pixel [(i, j)] is ray [i * w + j]. *)
Lemma flatten_nth {A : Type} (d : A) (w : nat) (grid : list (list A)) :
  forall h i j,
    shape2 h w grid -> (i < h)%nat -> (j < w)%nat ->
    nth (i * w + j) (flatten grid) d = entry d grid i j.
Proof.
  unfold flatten, entry.
  induction grid as [|row grid IH]; intros h i j [Hh Hw] Hi Hj; simpl in Hh.
  - lia.
  - inversion Hw as [|? ? Hrow Hrest]; subst. simpl concat.
    destruct i as [|i].
    + simpl. apply app_nth1. lia.
    + rewrite app_nth2 by (simpl; nia).
      replace (S i * length row + j - length row)%nat
        with (i * length row + j)%nat by (simpl; lia).
      apply (IH (length grid)); [split; auto | lia | lia].
Qed.

(** C6.  A [CameraRayBundle] of [h] by [w] pixels, flattened with
    [to_ray_bundle] and reshaped with [to_camera_ray_bundle h w], has the
    origins and directions it started with, of shape [h; w; 3]. *)
Theorem to_ray_bundle_to_camera_ray_bundle (self : CameraRayBundle.t) (h w : nat) :
  shape2 h w (CameraRayBundle.origins self) ->
  shape2 h w (CameraRayBundle.directions self) ->
  exists b,
    to_camera_ray_bundle (to_ray_bundle self) h w = Ok b /\
    CameraRayBundle.origins b = CameraRayBundle.origins self /\
    CameraRayBundle.directions b = CameraRayBundle.directions self /\
    shape2 h w (CameraRayBundle.origins b) /\
    shape2 h w (CameraRayBundle.directions b).
Proof.
  intros Ho Hd. eexists. split.
  - unfold to_camera_ray_bundle, to_ray_bundle.
    cbn [RayBundle.origins RayBundle.directions RayBundle.camera_indices].
    rewrite !view_flatten by assumption. reflexivity.
  - cbn. auto.
Qed.

(** C9.  [to_ray_bundle] keeps the origins and the directions, one row per
    pixel in row-major order, and nothing else: [camera_indices], [nears],
    [fars] and [valid_mask] of the result are absent, whether or not the
    [CameraRayBundle] has a grid of camera indices. *)
Theorem to_ray_bundle_fields (self : CameraRayBundle.t) :
  RayBundle.camera_indices (to_ray_bundle self) = None /\
  RayBundle.nears (to_ray_bundle self) = None /\
  RayBundle.fars (to_ray_bundle self) = None /\
  RayBundle.valid_mask (to_ray_bundle self) = None /\
  forall h w,
    shape2 h w (CameraRayBundle.origins self) ->
    shape2 h w (CameraRayBundle.directions self) ->
    length (RayBundle.origins (to_ray_bundle self)) = (h * w)%nat /\
    length (RayBundle.directions (to_ray_bundle self)) = (h * w)%nat /\
    forall i j, (i < h)%nat -> (j < w)%nat ->
      nth (i * w + j) (RayBundle.origins (to_ray_bundle self)) vzero
        = entry vzero (CameraRayBundle.origins self) i j /\
      nth (i * w + j) (RayBundle.directions (to_ray_bundle self)) vzero
        = entry vzero (CameraRayBundle.directions self) i j.
Proof.
  repeat (split; [reflexivity|]).
  intros h w Ho Hd. cbn [to_ray_bundle RayBundle.origins RayBundle.directions].
  split; [now apply flatten_length|].
  split; [now apply flatten_length|].
  intros i j Hi Hj.
  split; apply (flatten_nth vzero w _ h); assumption.
Qed.

(** ** Camera indices *)

Lemma wrap64_in_range (z : Z) : in_int64 z -> wrap64 z = z.
Proof.
  unfold in_int64, wrap64. intros H.
  rewrite Z.mod_small by lia. lia.
Qed.

Lemma long_scalar_in_range (c : Z) : in_int64 c -> long_scalar c = Ok c.
Proof.
  unfold in_int64, long_scalar. intros H.
  replace (- 2 ^ 63 <=? c)%Z with true by (symmetry; apply Z.leb_le; lia).
  replace (c <? 2 ^ 63)%Z with true by (symmetry; apply Z.ltb_lt; lia).
  reflexivity.
Qed.

Lemma set_camera_indices_in_range (self : CameraRayBundle.t) (c : Z) (h w : nat) :
  shape2 h w (CameraRayBundle.origins self) ->
  in_int64 c ->
  exists b,
    set_camera_indices self c = (b, Ok tt) /\
    camera_is h w c b /\
    CameraRayBundle.origins b = CameraRayBundle.origins self /\
    CameraRayBundle.directions b = CameraRayBundle.directions self.
Proof.
  intros Ho Hc. unfold set_camera_indices.
  rewrite (long_scalar_in_range c Hc).
  cbn [CameraRayBundle.origins CameraRayBundle.directions
       CameraRayBundle.camera_index].
  eexists. split; [reflexivity|].
  split; [|split; reflexivity].
  split; [reflexivity|].
  eexists. split; [reflexivity|]. split.
  - apply shape2_map with (m := w); [|exact Ho].
    intros row Hrow. now rewrite length_map.
  - intros i j Hi Hj. unfold entry.
    rewrite (map_nth_lt _ []) by (destruct Ho; lia).
    rewrite (map_nth_lt _ vzero)
      by (rewrite (shape2_nth h w _ i Ho Hi); exact Hj).
    rewrite Z.mul_1_l. now apply wrap64_in_range.
Qed.

(** C7, amended.  On a [CameraRayBundle] of [h] by [w] pixels and for [c]
    of the signed 64-bit range, [set_camera_indices c] succeeds and leaves
    the scalar [camera_index] at [c] and the grid [camera_indices] at [h] by
    [w] entries all equal to [c], with origins and directions untouched; so
    does construction with a [camera_index] argument, whatever grid is
    passed along.  Construction without a [camera_index] stores the grid it
    is given and no scalar. *)
Theorem set_camera_indices_sync (self : CameraRayBundle.t) (c : Z) (h w : nat) :
  shape2 h w (CameraRayBundle.origins self) ->
  in_int64 c ->
  (exists b,
     set_camera_indices self c = (b, Ok tt) /\
     camera_is h w c b /\
     CameraRayBundle.origins b = CameraRayBundle.origins self /\
     CameraRayBundle.directions b = CameraRayBundle.directions self) /\
  (forall directions camera_indices,
     exists b,
       new_CameraRayBundle (CameraRayBundle.origins self) directions
                           camera_indices (Some c) = Ok b /\
       camera_is h w c b) /\
  (forall directions camera_indices,
     new_CameraRayBundle (CameraRayBundle.origins self) directions
                         camera_indices None
     = Ok (CameraRayBundle.mk (CameraRayBundle.origins self) directions
                              camera_indices None)).
Proof.
  intros Ho Hc. split; [now apply set_camera_indices_in_range|].
  split; [|reflexivity].
  intros directions camera_indices.
  destruct (set_camera_indices_in_range
              (CameraRayBundle.mk (CameraRayBundle.origins self) directions
                                  camera_indices (Some c)) c h w Ho Hc)
    as (b & Hb & Hsync & _).
  exists b. split; [|exact Hsync].
  unfold new_CameraRayBundle, post_init.
  cbn [CameraRayBundle.camera_index]. now rewrite Hb.
Qed.

(** C7 as stated fails.  At [c = 2 ^ 63] the product wraps around: the
    scalar holds [2 ^ 63] and every entry of the grid is [- 2 ^ 63].  At
    [c = 2 ^ 64 + 5] the product raises after the scalar is stored: the
    scalar holds the new value beside the grid of camera 4.  And
    [to_camera_ray_bundle] on a bundle with camera indices constructs a
    [CameraRayBundle] with a grid and no scalar, through neither the setter
    nor a [camera_index] argument. *)
Lemma set_camera_indices_out_of_sync :
  (exists b,
     set_camera_indices image_2_3 (2 ^ 63) = (b, Ok tt) /\
     CameraRayBundle.camera_index b = Some (2 ^ 63)%Z /\
     CameraRayBundle.camera_indices b =
       Some [[(- 2 ^ 63)%Z; (- 2 ^ 63)%Z; (- 2 ^ 63)%Z];
             [(- 2 ^ 63)%Z; (- 2 ^ 63)%Z; (- 2 ^ 63)%Z]] /\
     ~ camera_is 2 3 (2 ^ 63) b) /\
  (exists b,
     set_camera_indices image_2_3 (2 ^ 64 + 5) = (b, Raise OverflowError) /\
     CameraRayBundle.camera_index b = Some (2 ^ 64 + 5)%Z /\
     CameraRayBundle.camera_indices b = CameraRayBundle.camera_indices image_2_3 /\
     ~ camera_is 2 3 (2 ^ 64 + 5) b) /\
  (exists b,
     to_camera_ray_bundle two_rays 1 2 = Ok b /\
     CameraRayBundle.camera_indices b = Some [[7%Z; 8%Z]] /\
     CameraRayBundle.camera_index b = None).
Proof.
  split; [|split].
  - eexists. split; [reflexivity|]. split; [reflexivity|]. split; [reflexivity|].
    intros (_ & grid & Hgrid & _ & Hentry).
    cbn in Hgrid. injection Hgrid as <-.
    specialize (Hentry 0%nat 0%nat). vm_compute in Hentry.
    assert (H : Zneg (Z.to_pos (2 ^ 63)) = Zpos (Z.to_pos (2 ^ 63)))
      by (apply Hentry; constructor; repeat constructor).
    discriminate H.
  - eexists. split; [reflexivity|]. split; [reflexivity|]. split; [reflexivity|].
    intros (_ & grid & Hgrid & _ & Hentry).
    cbn in Hgrid. injection Hgrid as <-.
    specialize (Hentry 0%nat 0%nat). vm_compute in Hentry.
    assert (H : 4%Z = (2 ^ 64 + 5)%Z)
      by (apply Hentry; constructor; repeat constructor).
    discriminate H.
  - eexists. split; [reflexivity|]. split; reflexivity.
Qed.

(** ** The theorems at the sample inputs *)

Lemma shape2_intro {A : Type} (n m : nat) (t : list (list A)) :
  length t = n -> forallb (fun row => Nat.eqb (length row) m) t = true ->
  shape2 n m t.
Proof.
  intros Hn Hm. split; [exact Hn|].
  apply Forall_forall. intros row Hrow.
  rewrite forallb_forall in Hm. now apply Nat.eqb_eq, Hm.
Defined.

Lemma get_weights_single_sample :
  exists weights,
    get_weights single_sample [[mkVec1 3]] = Ok weights /\
    shape2 1 1 weights /\
    entry 0 weights 0 0 = 1 - exp (- (2 * 3)).
Proof.
  destruct (get_weights_formula single_sample [[2]] [[mkVec1 3]] 1 1)
    as (weights & Hw & Hshape & _ & Hfirst).
  - reflexivity.
  - apply shape2_intro; reflexivity.
  - apply shape2_intro; reflexivity.
  - exists weights. split; [exact Hw|]. split; [exact Hshape|].
    apply (Hfirst 0%nat); lia.
Defined.

Lemma vec3_coordinates (v : vec3) (x y z : R) :
  vx v = x -> vy v = y -> vz v = z -> v = mkVec3 x y z.
Proof.
  destruct v as [a b c]. cbn. intros -> -> ->. reflexivity.
Defined.

Lemma get_ray_samples_offset_rays_positions :
  exists rs P,
    get_ray_samples offset_rays offset_rays_ts = Ok rs /\
    RaySamples.positions rs = Some P /\
    entry vzero P 0 0 = mkVec3 0 0 0 /\
    entry vzero P 0 1 = mkVec3 1 0 0 /\
    entry vzero P 0 2 = mkVec3 2 0 0 /\
    entry vzero P 1 0 = mkVec3 1 2 3 /\
    entry vzero P 1 1 = mkVec3 4 6 3 /\
    entry vzero P 1 2 = mkVec3 7 10 3.
Proof.
  destruct (get_ray_samples_positions offset_rays offset_rays_ts 2 3)
    as (rs & P & D & V & Hrs & HP & _ & _ & _ & _ & _ & Hentry).
  - reflexivity.
  - reflexivity.
  - apply shape2_intro; reflexivity.
  - exists rs, P. split; [exact Hrs|]. split; [exact HP|].
    repeat split;
      match goal with
      | |- entry vzero P ?r ?i = _ =>
          destruct (Hentry r i) as (Hx & Hy & Hz & _); [lia | lia |];
          apply vec3_coordinates; [rewrite Hx | rewrite Hy | rewrite Hz];
          unfold entry; cbn; lra
      end.
Defined.

Lemma get_ray_samples_offset_rays_deltas :
  exists rs D,
    get_ray_samples offset_rays offset_rays_ts = Ok rs /\
    RaySamples.deltas rs = Some D /\
    shape2 2 3 D /\
    entry 0 D 0 0 = 1 /\ entry 0 D 0 1 = 1 /\ entry 0 D 0 2 = 1 /\
    entry 0 D 1 0 = 5 /\ entry 0 D 1 1 = 5 /\ entry 0 D 1 2 = 5.
Proof.
  destruct (get_ray_samples_deltas offset_rays offset_rays_ts 2 3)
    as (rs & D & Hrs & HD & Hshape & Hentry).
  - reflexivity.
  - reflexivity.
  - apply shape2_intro; reflexivity.
  - lia.
  - exists rs, D. split; [exact Hrs|]. split; [exact HD|]. split; [exact Hshape|].
    assert (H1 : sqrt (1 * 1 + 0 * 0 + 0 * 0) = 1).
    { replace (1 * 1 + 0 * 0 + 0 * 0) with 1 by lra. apply sqrt_1. }
    assert (H5 : sqrt (3 * 3 + 4 * 4 + 0 * 0) = 5).
    { replace (3 * 3 + 4 * 4 + 0 * 0) with (5 * 5) by lra.
      apply sqrt_square. lra. }
    destruct (Hentry 0%nat) as (Hbefore0 & Hlast0 & _); [lia|].
    destruct (Hentry 1%nat) as (Hbefore1 & Hlast1 & _); [lia|].
    cbn in Hbefore0, Hlast0, Hbefore1, Hlast1.
    rewrite (Hbefore0 0%nat), (Hbefore0 1%nat), Hlast0 by lia.
    rewrite (Hbefore1 0%nat), (Hbefore1 1%nat), Hlast1 by lia.
    rewrite H1, H5. unfold entry; cbn. repeat split; lra.
Defined.

Lemma sample_too_many_unit_ray :
  sample [] unit_ray 2 = Raise AssertionError.
Proof.
  apply (sample_too_many [] unit_ray 2). reflexivity.
Defined.

Lemma sample_two_bare_rays :
  sample [1%nat; 0%nat] two_bare_rays 2 = Raise TypeError.
Proof.
  apply (sample_without_camera_indices [1%nat; 0%nat] two_bare_rays 2).
  - reflexivity.
  - reflexivity.
  - cbv. split; discriminate.
  - split; [reflexivity|]. split.
    + constructor; [simpl; intros [H|[]]; discriminate|].
      constructor; [simpl; tauto | constructor].
    + repeat constructor.
Defined.

Lemma get_masked_ray_bundle_two_rays :
  exists b,
    get_masked_ray_bundle two_rays [false; true] = Ok b /\
    RayBundle.origins b = [mkVec3 0 0 1] /\
    RayBundle.directions b = [mkVec3 0 1 0] /\
    RayBundle.camera_indices b = Some [8%Z] /\
    RayBundle.nears b = Some [1] /\
    RayBundle.fars b = None /\
    RayBundle.valid_mask b = None.
Proof.
  destruct (get_masked_ray_bundle_fields two_rays [false; true] 2)
    as (b & Hb & Ho & Hd & Hc & Hn & Hf & Hv).
  - repeat split.
  - reflexivity.
  - exists b. split; [exact Hb|].
    rewrite Ho, Hd, Hc, Hn, Hf, Hv. repeat split.
Defined.

Lemma to_ray_bundle_to_camera_ray_bundle_image_2_3 :
  exists b,
    to_camera_ray_bundle (to_ray_bundle image_2_3) 2 3 = Ok b /\
    CameraRayBundle.origins b = CameraRayBundle.origins image_2_3 /\
    CameraRayBundle.directions b = CameraRayBundle.directions image_2_3 /\
    shape2 2 3 (CameraRayBundle.origins b) /\
    shape2 2 3 (CameraRayBundle.directions b).
Proof.
  apply (to_ray_bundle_to_camera_ray_bundle image_2_3 2 3);
    apply shape2_intro; reflexivity.
Defined.

Lemma in_int64_5 : in_int64 5.
Proof.
  split; [discriminate | reflexivity].
Defined.

Lemma set_camera_indices_image_2_3 :
  (exists b,
     set_camera_indices image_2_3 5 = (b, Ok tt) /\
     camera_is 2 3 5 b /\
     CameraRayBundle.origins b = CameraRayBundle.origins image_2_3 /\
     CameraRayBundle.directions b = CameraRayBundle.directions image_2_3) /\
  (exists b,
     new_CameraRayBundle (CameraRayBundle.origins image_2_3)
                         (CameraRayBundle.directions image_2_3)
                         (Some [[1%Z; 2%Z; 3%Z]; [4%Z; 5%Z; 6%Z]]) (Some 5%Z)
       = Ok b /\
     camera_is 2 3 5 b).
Proof.
  destruct (set_camera_indices_sync image_2_3 5 2 3) as (Hset & Hnew & _);
    [apply shape2_intro; reflexivity | exact in_int64_5 |].
  split; [exact Hset | apply Hnew].
Defined.

Lemma to_ray_bundle_image_2_3 :
  CameraRayBundle.camera_indices image_2_3 <> None /\
  RayBundle.camera_indices (to_ray_bundle image_2_3) = None /\
  length (RayBundle.origins (to_ray_bundle image_2_3)) = 6%nat /\
  nth 5 (RayBundle.directions (to_ray_bundle image_2_3)) vzero = mkVec3 1 0 1.
Proof.
  destruct (to_ray_bundle_fields image_2_3) as (Hc & _ & _ & _ & Hflat).
  destruct (Hflat 2%nat 3%nat) as (Hlen & _ & Hrows);
    [apply shape2_intro; reflexivity | apply shape2_intro; reflexivity |].
  split; [discriminate|]. split; [exact Hc|]. split; [exact Hlen|].
  destruct (Hrows 1%nat 2%nat) as [_ Hdir]; [lia | lia |].
  exact Hdir.
Defined.

(** ** More on get_weights *)

(** The value and the entries of [get_weights] on matching shapes. *)
Lemma get_weights_entries (self : RaySamples.t) (deltas : list (list R))
    (densities : list (list vec1)) (n s : nat) :
  RaySamples.deltas self = Some deltas ->
  shape2 n s deltas ->
  shape2 n s densities ->
  exists weights,
    get_weights self densities = Ok weights /\
    shape2 n s weights /\
    forall r i, (r < n)%nat -> (i < s)%nat ->
      entry 0 weights r i =
      (1 - exp (- (entry 0 deltas r i * density densities r i))) *
      exp (- sum_below i (fun j => entry 0 deltas r j * density densities r j)).
Proof.
  intros Hself Hd Hrho.
  assert (Hc : shape2 n s (map (map c0) densities)).
  { apply shape2_map with (m := s); auto. intros; now rewrite length_map. }
  pose proof (shape2_map2 Rmult n s _ _ Hd Hc) as Hdd.
  assert (Hprod : forall r i, (r < n)%nat -> (i < s)%nat ->
            entry 0 (map2 (map2 Rmult) deltas (map (map c0) densities)) r i
            = entry 0 deltas r i * density densities r i).
  { intros r i Hr Hi.
    rewrite (entry_map2 Rmult 0 0 0 n s) by assumption.
    unfold density. rewrite <- (entry_map_map c0). reflexivity. }
  eexists. split; [eapply get_weights_rows; eassumption|]. split.
  - apply shape2_map with (m := s); auto.
    intros row Hrow. rewrite map2_length, !length_map. cbn [length].
    unfold cumsum. rewrite cumsum_from_length, removelast_length. lia.
  - intros r i Hr Hi.
    rewrite entry_map by reflexivity.
    rewrite weights_row_nth by (rewrite (shape2_nth _ _ _ _ Hdd Hr); exact Hi).
    fold (entry 0 (map2 (map2 Rmult) deltas (map (map c0) densities)) r i).
    rewrite Hprod by assumption.
    do 3 f_equal. apply sum_below_ext. intros j Hj.
    apply (Hprod r j); lia.
Qed.

Lemma exp_neg_le_1 (x : R) : 0 <= x -> exp (- x) <= 1.
Proof.
  intros [Hx| <-].
  - rewrite <- exp_0. left. apply exp_increasing. lra.
  - rewrite Ropp_0, exp_0. lra.
Qed.

Lemma sum_below_nonneg (i : nat) (f : nat -> R) :
  (forall j, (j < i)%nat -> 0 <= f j) -> 0 <= sum_below i f.
Proof.
  induction i as [|i IH]; intros H; simpl; [lra|].
  assert (0 <= sum_below i f) by (apply IH; intros; apply H; lia).
  assert (0 <= f i) by (apply H; lia). lra.
Qed.

(** Alpha compositing telescopes: the weights up to a sample add up to one
    minus the transmittance behind it. *)
Lemma sum_below_weights (p : nat -> R) (i : nat) :
  sum_below i (fun k => (1 - exp (- p k)) * exp (- sum_below k p))
  = 1 - exp (- sum_below i p).
Proof.
  induction i as [|i IH]; simpl.
  - rewrite Ropp_0, exp_0. lra.
  - rewrite IH, Ropp_plus_distr, exp_plus. lra.
Qed.


(** X2.  With non-negative widths and densities every weight lies between
    0 and 1, and so does the sum of the weights of a ray. *)
Theorem get_weights_bounds (self : RaySamples.t) (deltas : list (list R))
    (densities : list (list vec1)) (n s : nat) :
  RaySamples.deltas self = Some deltas ->
  shape2 n s deltas ->
  shape2 n s densities ->
  (forall r i, (r < n)%nat -> (i < s)%nat ->
     0 <= entry 0 deltas r i /\ 0 <= density densities r i) ->
  exists weights,
    get_weights self densities = Ok weights /\
    forall r, (r < n)%nat ->
      (forall i, (i < s)%nat -> 0 <= entry 0 weights r i <= 1) /\
      0 <= sum_below s (fun i => entry 0 weights r i) <= 1.
Proof.
  intros Hself Hd Hrho Hpos.
  destruct (get_weights_entries self deltas densities n s Hself Hd Hrho)
    as (weights & Hw & _ & Hentry).
  exists weights. split; [exact Hw|]. intros r Hr.
  assert (Hp : forall j, (j < s)%nat ->
            0 <= entry 0 deltas r j * density densities r j).
  { intros j Hj. destruct (Hpos r j Hr Hj). now apply Rmult_le_pos. }
  assert (Hbound : forall i, (i < s)%nat -> 0 <= entry 0 weights r i <= 1).
  { intros i Hi. rewrite Hentry by assumption.
    pose proof (exp_neg_le_1 _ (Hp i Hi)) as Ha.
    pose proof (exp_pos (- (entry 0 deltas r i * density densities r i))) as Ha'.
    assert (Hs : 0 <= sum_below i
              (fun j => entry 0 deltas r j * density densities r j)).
    { apply sum_below_nonneg. intros j Hj. apply Hp. lia. }
    pose proof (exp_neg_le_1 _ Hs) as Ht.
    pose proof (exp_pos (- sum_below i
              (fun j => entry 0 deltas r j * density densities r j))) as Ht'.
    split; [apply Rmult_le_pos; lra | nra]. }
  split; [exact Hbound|]. split.
  - apply sum_below_nonneg. intros i Hi. now apply Hbound.
  - replace (sum_below s (fun i => entry 0 weights r i))
      with (1 - exp (- sum_below s
              (fun j => entry 0 deltas r j * density densities r j))).
    + pose proof (exp_pos (- sum_below s
              (fun j => entry 0 deltas r j * density densities r j))). lra.
    + rewrite <- sum_below_weights. apply sum_below_ext.
      intros i Hi. symmetry. now apply Hentry.
Qed.

(** X3.  With non-negative widths and densities, a sample of zero width or
    of zero density has weight 0. *)
Theorem get_weights_zero (self : RaySamples.t) (deltas : list (list R))
    (densities : list (list vec1)) (n s : nat) :
  RaySamples.deltas self = Some deltas ->
  shape2 n s deltas ->
  shape2 n s densities ->
  (forall r i, (r < n)%nat -> (i < s)%nat ->
     0 <= entry 0 deltas r i /\ 0 <= density densities r i) ->
  exists weights,
    get_weights self densities = Ok weights /\
    forall r i, (r < n)%nat -> (i < s)%nat ->
      entry 0 deltas r i = 0 \/ density densities r i = 0 ->
      entry 0 weights r i = 0.
Proof.
  intros Hself Hd Hrho _.
  destruct (get_weights_entries self deltas densities n s Hself Hd Hrho)
    as (weights & Hw & _ & Hentry).
  exists weights. split; [exact Hw|]. intros r i Hr Hi Hzero.
  rewrite Hentry by assumption.
  replace (entry 0 deltas r i * density densities r i) with 0
    by (destruct Hzero as [-> | ->]; lra).
  rewrite Ropp_0, exp_0. lra.
Qed.

Lemma broadcast_mismatch {A B C : Type} (f : A -> B -> C) (la : list A) (lb : list B) :
  length la <> length lb -> length la <> 1%nat -> length lb <> 1%nat ->
  broadcast f la lb = Raise RuntimeError.
Proof.
  intros Hab Ha Hb. unfold broadcast.
  destruct (Nat.eqb_spec (length la) (length lb)) as [E|_]; [contradiction|].
  destruct la as [|a [|a' la]]; destruct lb as [|b [|b' lb]];
    simpl in *; try reflexivity; lia.
Qed.

(** X4.  [get_weights] raises on a [RaySamples] without [deltas], and when
    the densities are given for a number of rays that differs from the rows
    of [deltas] while neither number is 1. *)
Theorem get_weights_raises (self : RaySamples.t) (densities : list (list vec1)) :
  (RaySamples.deltas self = None ->
   get_weights self densities = Raise TypeError) /\
  (forall deltas,
     RaySamples.deltas self = Some deltas ->
     length deltas <> length densities ->
     length deltas <> 1%nat -> length densities <> 1%nat ->
     get_weights self densities = Raise RuntimeError).
Proof.
  split.
  - intros H. unfold get_weights. now rewrite H.
  - intros deltas H Hne H1 H2. unfold get_weights, broadcast2.
    rewrite H. cbn [as_tensor bind].
    rewrite broadcast_mismatch by (rewrite ?length_map; assumption).
    reflexivity.
Qed.

(** ** More on get_ray_samples *)

(** X8.  [get_ray_samples] raises when the number of rows of [ts] differs
    from the number of directions, or the number of origins from both, and
    neither of the two numbers is 1. *)
Theorem get_ray_samples_raises (self : RayBundle.t) (ts : list (list R)) :
  (length ts <> length (RayBundle.directions self) ->
   length ts <> 1%nat -> length (RayBundle.directions self) <> 1%nat ->
   get_ray_samples self ts = Raise RuntimeError) /\
  (length ts = length (RayBundle.directions self) ->
   length (RayBundle.origins self) <> length ts ->
   length (RayBundle.origins self) <> 1%nat -> length ts <> 1%nat ->
   get_ray_samples self ts = Raise RuntimeError).
Proof.
  split.
  - intros Hne H1 H2. unfold get_ray_samples.
    now rewrite broadcast_mismatch by assumption.
  - intros Heq Hne H1 H2. unfold get_ray_samples.
    rewrite broadcast_same_length by exact Heq. cbn [bind].
    rewrite broadcast_mismatch; [reflexivity | | exact H1 |];
      rewrite map2_length; lia.
Qed.

(** ** More on get_masked_ray_bundle *)

Lemma select_all_true {A : Type} (t : list A) :
  select t (repeat true (length t)) = t.
Proof.
  induction t as [|a t IH]; simpl; congruence.
Qed.

Lemma select_length {A : Type} (t : list A) :
  forall mask, length t = length mask ->
    length (select t mask) = count_occ Bool.bool_dec mask true.
Proof.
  induction t as [|a t IH]; intros [|m mask] Hlen; simpl in Hlen; try lia; auto.
  destruct m; simpl; rewrite (IH mask) by lia; reflexivity.
Qed.

Lemma masked_select {A : Type} (t : list A) (mask : list bool) :
  length t = length mask -> masked t mask = Ok (select t mask).
Proof.
  intros H. unfold masked. now rewrite H, Nat.eqb_refl.
Qed.

Lemma masked_field_select {A : Type} (n : nat) (field : option (list A))
    (mask : list bool) :
  field_rows n field -> length mask = n ->
  masked_field field mask = Ok (option_map (fun t => select t mask) field).
Proof.
  intros Hf Hm. destruct field as [t|]; [|reflexivity].
  unfold masked_field. cbn [is_not_none as_tensor bind].
  rewrite masked_select by (simpl in Hf; congruence).
  reflexivity.
Qed.

Lemma get_masked_ray_bundle_select (self : RayBundle.t) (mask : list bool) (n : nat) :
  bundle_rows n self -> length mask = n ->
  get_masked_ray_bundle self mask =
  Ok (RayBundle.mk
        (select (RayBundle.origins self) mask)
        (select (RayBundle.directions self) mask)
        (option_map (fun t => select t mask) (RayBundle.camera_indices self))
        (option_map (fun t => select t mask) (RayBundle.nears self))
        (option_map (fun t => select t mask) (RayBundle.fars self))
        (option_map (fun t => select t mask) (RayBundle.valid_mask self))).
Proof.
  intros (Ho & Hd & Hc & Hn & Hf & Hv) Hm. unfold get_masked_ray_bundle.
  rewrite !masked_select by congruence. cbn [bind].
  rewrite !(masked_field_select n) by assumption.
  reflexivity.
Qed.

(** X9.  Masking a bundle of [n] rays with the mask that is true everywhere
    returns the bundle unchanged. *)
Theorem get_masked_ray_bundle_all_true (self : RayBundle.t) (n : nat) :
  bundle_rows n self ->
  get_masked_ray_bundle self (repeat true n) = Ok self.
Proof.
  intros H. rewrite (get_masked_ray_bundle_select self _ n H)
    by apply repeat_length.
  destruct H as (Ho & Hd & Hc & Hn & Hf & Hv).
  destruct self as [o d c nr fr vm]; cbn in *.
  subst n. rewrite select_all_true.
  rewrite <- Hd at 1. rewrite select_all_true.
  do 2 f_equal.
  - destruct c as [t|]; cbn in *; [|reflexivity].
    rewrite <- Hc. now rewrite select_all_true.
  - destruct nr as [t|]; cbn in *; [|reflexivity].
    rewrite <- Hn. now rewrite select_all_true.
  - destruct fr as [t|]; cbn in *; [|reflexivity].
    rewrite <- Hf. now rewrite select_all_true.
  - destruct vm as [t|]; cbn in *; [|reflexivity].
    rewrite <- Hv. now rewrite select_all_true.
Qed.

Lemma field_rows_select {A : Type} (n : nat) (field : option (list A))
    (mask : list bool) :
  field_rows n field -> length mask = n ->
  field_rows (count_occ Bool.bool_dec mask true)
             (option_map (fun t => select t mask) field).
Proof.
  intros Hf Hm. destruct field as [t|]; cbn in *; [|exact I].
  apply select_length. congruence.
Qed.

(** X10.  Masking a bundle of [n] rays returns a bundle that keeps the
    invariant of its fields, with as many rays as the mask has true
    entries. *)
Theorem get_masked_ray_bundle_rows (self : RayBundle.t) (mask : list bool) (n : nat) :
  bundle_rows n self ->
  length mask = n ->
  exists b,
    get_masked_ray_bundle self mask = Ok b /\
    bundle_rows (count_occ Bool.bool_dec mask true) b.
Proof.
  intros H Hm. eexists. split; [now apply (get_masked_ray_bundle_select self mask n)|].
  destruct H as (Ho & Hd & Hc & Hn & Hf & Hv).
  unfold bundle_rows; cbn.
  repeat split;
    try (apply select_length; congruence);
    now apply (field_rows_select n).
Qed.

(** X11.  A mask whose length is not the number of rays makes
    [get_masked_ray_bundle] raise. *)
Theorem get_masked_ray_bundle_wrong_mask (self : RayBundle.t) (mask : list bool) :
  length mask <> length (RayBundle.origins self) ->
  get_masked_ray_bundle self mask = Raise IndexError.
Proof.
  intros H. unfold get_masked_ray_bundle, masked.
  destruct (Nat.eqb_spec (length (RayBundle.origins self)) (length mask));
    [congruence | reflexivity].
Qed.

(** ** More on sample *)


Lemma map_nth_seq {A : Type} (d : A) (t : list A) :
  map (fun i => nth i t d) (seq 0 (length t)) = t.
Proof.
  induction t as [|a t IH]; simpl; [reflexivity|].
  rewrite <- seq_shift, map_map. cbn. now rewrite IH.
Qed.

Lemma full_draw_permutation (n : nat) (idx : list nat) :
  length idx = n -> NoDup idx -> Forall (fun i => (i < n)%nat) idx ->
  Permutation idx (seq 0 n).
Proof.
  intros Hlen Hnd Hin.
  apply NoDup_Permutation_bis; [exact Hnd | rewrite length_seq; lia |].
  intros i Hi. rewrite Forall_forall in Hin.
  apply in_seq. specialize (Hin i Hi). lia.
Qed.

(** X13.  Asking [sample] for as many rays as the bundle holds returns its
    rows in some order: the origins, the directions and the camera indices
    of the result are permutations of the original ones. *)
Theorem sample_all_rays (idx : list nat) (self : RayBundle.t) (cams : list Z) :
  RayBundle.camera_indices self = Some cams ->
  length (RayBundle.directions self) = length (RayBundle.origins self) ->
  length cams = length (RayBundle.origins self) ->
  random_sample_ok (len self) (len self) idx ->
  exists b cams',
    sample idx self (len self) = Ok b /\
    Permutation (RayBundle.origins b) (RayBundle.origins self) /\
    Permutation (RayBundle.directions b) (RayBundle.directions self) /\
    RayBundle.camera_indices b = Some cams' /\
    Permutation cams' cams.
Proof.
  intros Hcams Hd Hc Hidx.
  destruct (sample_with_camera_indices idx self cams (len self) Hcams Hd Hc)
    as (Hs & Hlen & Hnd & Hin); [unfold len; lia | exact Hidx |].
  assert (Hperm : Permutation idx (seq 0 (length (RayBundle.origins self)))).
  { apply full_draw_permutation; [unfold len in Hlen; lia | exact Hnd | exact Hin]. }
  do 2 eexists. split; [exact Hs|]. cbn.
  split; [|split; [|split; [reflexivity|]]].
  - eapply Permutation_trans; [apply Permutation_map; exact Hperm|].
    now rewrite map_nth_seq.
  - eapply Permutation_trans; [apply Permutation_map; exact Hperm|].
    now rewrite <- Hd, map_nth_seq.
  - eapply Permutation_trans; [apply Permutation_map; exact Hperm|].
    now rewrite <- Hc, map_nth_seq.
Qed.

(** ** More on reshaping *)

Lemma chunks_shape {A : Type} (w : nat) :
  forall (h : nat) (t : list A),
    length t = (h * w)%nat -> shape2 h w (chunks h w t).
Proof.
  induction h as [|h IH]; intros t Hlen; simpl.
  - split; [reflexivity | constructor].
  - destruct (IH (skipn w t)) as [Hh Hw].
    { rewrite length_skipn. simpl in Hlen. lia. }
    split; [simpl; now rewrite Hh|].
    constructor; [|exact Hw].
    rewrite length_firstn. simpl in Hlen. lia.
Qed.

Lemma flatten_chunks {A : Type} (w : nat) :
  forall (h : nat) (t : list A),
    length t = (h * w)%nat -> flatten (chunks h w t) = t.
Proof.
  unfold flatten.
  induction h as [|h IH]; intros t Hlen; simpl.
  - simpl in Hlen. apply length_zero_iff_nil in Hlen. now subst.
  - rewrite IH by (rewrite length_skipn; simpl in Hlen; lia).
    apply firstn_skipn.
Qed.

Lemma view_ok {A : Type} (h w : nat) (t : list A) :
  length t = (h * w)%nat -> view h w t = Ok (chunks h w t).
Proof.
  intros H. unfold view. now rewrite H, Nat.eqb_refl.
Qed.

(** X15.  [to_camera_ray_bundle] raises when the number of rays is not
    [image_height * image_width]. *)
Theorem to_camera_ray_bundle_wrong_size (self : RayBundle.t) (h w : nat) :
  length (RayBundle.origins self) <> (h * w)%nat ->
  to_camera_ray_bundle self h w = Raise RuntimeError.
Proof.
  intros H. unfold to_camera_ray_bundle, view.
  destruct (Nat.eqb_spec (length (RayBundle.origins self)) (h * w));
    [contradiction | reflexivity].
Qed.

(** X16.  On a bundle of [h * w] rays, [to_camera_ray_bundle h w] returns
    grids of [h] by [w] pixels without a scalar camera index, with a grid of
    camera indices exactly when the bundle has camera indices; flattening
    the result with [to_ray_bundle] gives back the origins and the
    directions, and no camera indices. *)
Theorem to_camera_ray_bundle_to_ray_bundle (self : RayBundle.t) (h w : nat) :
  bundle_rows (h * w) self ->
  exists b,
    to_camera_ray_bundle self h w = Ok b /\
    shape2 h w (CameraRayBundle.origins b) /\
    shape2 h w (CameraRayBundle.directions b) /\
    CameraRayBundle.camera_index b = None /\
    CameraRayBundle.camera_indices b =
      option_map (chunks h w) (RayBundle.camera_indices self) /\
    RayBundle.origins (to_ray_bundle b) = RayBundle.origins self /\
    RayBundle.directions (to_ray_bundle b) = RayBundle.directions self /\
    RayBundle.camera_indices (to_ray_bundle b) = None.
Proof.
  intros (Ho & Hd & Hc & _).
  assert (Heval : to_camera_ray_bundle self h w =
            Ok (CameraRayBundle.mk
                  (chunks h w (RayBundle.origins self))
                  (chunks h w (RayBundle.directions self))
                  (option_map (chunks h w) (RayBundle.camera_indices self))
                  None)).
  { unfold to_camera_ray_bundle.
    rewrite !view_ok by assumption. cbn [bind].
    destruct (RayBundle.camera_indices self) as [t|]; cbn in *.
    - now rewrite view_ok by assumption.
    - reflexivity. }
  eexists. split; [exact Heval|]. cbn.
  split; [now apply chunks_shape|].
  split; [now apply chunks_shape|].
  split; [reflexivity|]. split; [reflexivity|].
  split; [now apply flatten_chunks|].
  split; [now apply flatten_chunks | reflexivity].
Qed.

(** X17.  On an image of [h] by [w] pixels [get_num_rays] is [h * w], the
    length of the bundle that [to_ray_bundle] returns. *)
Theorem get_num_rays_to_ray_bundle (self : CameraRayBundle.t) (h w : nat) :
  shape2 h w (CameraRayBundle.origins self) ->
  get_num_rays self = (h * w)%nat /\
  len (to_ray_bundle self) = Z.of_nat (get_num_rays self).
Proof.
  intros Ho.
  assert (Hn : get_num_rays self = (h * w)%nat).
  { unfold get_num_rays. destruct h as [|h].
    - destruct Ho as [-> _]. reflexivity.
    - rewrite (shape1_shape2 (S h) w _ Ho) by lia.
      destruct Ho as [-> _]. reflexivity. }
  split; [exact Hn|].
  rewrite Hn. unfold len. cbn [to_ray_bundle RayBundle.origins].
  now rewrite (flatten_length h w _ Ho).
Qed.

(** ** get_row_major_sliced_ray_bundle *)

Lemma firstn_plus {A : Type} (m k : nat) :
  forall l : list A, firstn (m + k) l = firstn m l ++ firstn k (skipn m l).
Proof.
  induction m as [|m IH]; intros [|a l]; simpl; auto.
  - now rewrite firstn_nil.
  - now rewrite IH.
Qed.

Lemma skipn_plus {A : Type} (m k : nat) :
  forall l : list A, skipn (m + k) l = skipn k (skipn m l).
Proof.
  induction m as [|m IH]; intros [|a l]; simpl; auto.
  now rewrite skipn_nil.
Qed.

Lemma clamp_nonneg (n : nat) (i : Z) :
  (0 <= i)%Z -> clamp n i = Nat.min n (Z.to_nat i).
Proof.
  intros Hi. unfold clamp.
  destruct (Z.ltb_spec i 0); lia.
Qed.

Lemma slice_app {A : Type} (t : list A) (a b c : Z) :
  (0 <= a <= b)%Z -> (b <= c)%Z ->
  slice t a b ++ slice t b c = slice t a c.
Proof.
  intros Hab Hbc. unfold slice.
  rewrite !clamp_nonneg by lia.
  set (n := length t).
  set (a' := Nat.min n (Z.to_nat a)).
  set (b' := Nat.min n (Z.to_nat b)).
  set (c' := Nat.min n (Z.to_nat c)).
  assert (Hle : (a' <= b' <= c')%nat) by (unfold a', b', c'; lia).
  replace (skipn b' t) with (skipn (b' - a') (skipn a' t))
    by (rewrite <- skipn_plus; f_equal; lia).
  replace (c' - a')%nat with ((b' - a') + (c' - b'))%nat by lia.
  now rewrite firstn_plus.
Qed.

Lemma slice_whole {A : Type} (t : list A) (stop : Z) :
  (Z.of_nat (length t) <= stop)%Z -> slice t 0 stop = t.
Proof.
  intros H. unfold slice. rewrite !clamp_nonneg by lia.
  replace (Nat.min (length t) (Z.to_nat 0)) with 0%nat by lia.
  replace (Nat.min (length t) (Z.to_nat stop)) with (length t) by lia.
  rewrite Nat.sub_0_r. simpl. apply firstn_all.
Qed.

Lemma slice_length_eq {A B : Type} (t : list A) (u : list B) (a b : Z) :
  length t = length u -> length (slice t a b) = length (slice u a b).
Proof.
  intros H. unfold slice.
  rewrite !length_firstn, !length_skipn, H. reflexivity.
Qed.

Lemma slice_Forall {A : Type} (P : A -> Prop) (t : list A) (a b : Z) :
  Forall P t -> Forall P (slice t a b).
Proof.
  intros H. unfold slice. rewrite Forall_forall in *.
  intros x Hx. apply H.
  rewrite <- (firstn_skipn (clamp (length t) a) t). apply in_or_app. right.
  rewrite <- (firstn_skipn (clamp (length t) b - clamp (length t) a)
                (skipn (clamp (length t) a) t)).
  apply in_or_app. now left.
Qed.

(** X18.  Consecutive slices tile the image: for [0 <= a <= b <= c] the
    rows of the slice from [a] to [b] followed by those of the slice from
    [b] to [c] are the rows of the slice from [a] to [c], for origins,
    directions and camera indices. *)
Theorem get_row_major_sliced_ray_bundle_app (self : CameraRayBundle.t) (a b c : Z) :
  (0 <= a <= b)%Z -> (b <= c)%Z ->
  RayBundle.origins (get_row_major_sliced_ray_bundle self a b)
  ++ RayBundle.origins (get_row_major_sliced_ray_bundle self b c)
  = RayBundle.origins (get_row_major_sliced_ray_bundle self a c) /\
  RayBundle.directions (get_row_major_sliced_ray_bundle self a b)
  ++ RayBundle.directions (get_row_major_sliced_ray_bundle self b c)
  = RayBundle.directions (get_row_major_sliced_ray_bundle self a c) /\
  RayBundle.camera_indices (get_row_major_sliced_ray_bundle self a c)
  = match RayBundle.camera_indices (get_row_major_sliced_ray_bundle self a b),
          RayBundle.camera_indices (get_row_major_sliced_ray_bundle self b c) with
    | Some x, Some y => Some (x ++ y)
    | _, _ => None
    end.
Proof.
  intros Hab Hbc. unfold get_row_major_sliced_ray_bundle. cbn.
  split; [now apply slice_app|]. split; [now apply slice_app|].
  destruct (CameraRayBundle.camera_indices self) as [grid|]; [|reflexivity].
  now rewrite slice_app.
Qed.

(** X19.  The slice from 0 to the number of rays, or to any bound above
    it, holds every ray in row-major order; unlike [to_ray_bundle] it keeps
    the camera indices. *)
Theorem get_row_major_sliced_ray_bundle_whole (self : CameraRayBundle.t)
    (h w : nat) (end_idx : Z) :
  shape2 h w (CameraRayBundle.origins self) ->
  shape2 h w (CameraRayBundle.directions self) ->
  match CameraRayBundle.camera_indices self with
  | Some grid => shape2 h w grid
  | None => True
  end ->
  (Z.of_nat (get_num_rays self) <= end_idx)%Z ->
  RayBundle.origins (get_row_major_sliced_ray_bundle self 0 end_idx)
    = RayBundle.origins (to_ray_bundle self) /\
  RayBundle.directions (get_row_major_sliced_ray_bundle self 0 end_idx)
    = RayBundle.directions (to_ray_bundle self) /\
  RayBundle.camera_indices (get_row_major_sliced_ray_bundle self 0 end_idx)
    = option_map flatten (CameraRayBundle.camera_indices self).
Proof.
  intros Ho Hd Hc Hend.
  assert (Hn : get_num_rays self = (h * w)%nat).
  { unfold get_num_rays. destruct h as [|h].
    - destruct Ho as [-> _]. reflexivity.
    - rewrite (shape1_shape2 (S h) w _ Ho) by lia.
      destruct Ho as [-> _]. reflexivity. }
  rewrite Hn in Hend.
  unfold get_row_major_sliced_ray_bundle, to_ray_bundle. cbn.
  split; [apply slice_whole; now rewrite (flatten_length h w _ Ho)|].
  split; [apply slice_whole; now rewrite (flatten_length h w _ Hd)|].
  destruct (CameraRayBundle.camera_indices self) as [grid|]; [|reflexivity].
  cbn. f_equal. apply slice_whole. now rewrite (flatten_length h w _ Hc).
Qed.

Lemma flatten_map_map_length {A B : Type} (f : A -> B) (grid : list (list A)) :
  length (flatten (map (map f) grid)) = length (flatten grid).
Proof.
  unfold flatten. induction grid as [|row grid IH]; simpl; auto.
  now rewrite !length_app, length_map, IH.
Qed.

(** X20.  After [set_camera_indices c] with [c] of the signed 64-bit
    range, every slice carries one camera index per ray, and each of them
    is [c]. *)
Theorem get_row_major_sliced_ray_bundle_camera (self : CameraRayBundle.t)
    (c start_idx end_idx : Z) :
  in_int64 c ->
  exists b cams,
    set_camera_indices self c = (b, Ok tt) /\
    RayBundle.camera_indices
      (get_row_major_sliced_ray_bundle b start_idx end_idx) = Some cams /\
    Forall (fun x => x = c) cams /\
    length cams =
      length (RayBundle.origins
                (get_row_major_sliced_ray_bundle b start_idx end_idx)).
Proof.
  intros Hc. unfold set_camera_indices.
  rewrite (long_scalar_in_range c Hc).
  do 2 eexists. split; [reflexivity|]. split; [reflexivity|].
  unfold get_row_major_sliced_ray_bundle.
  cbn [RayBundle.camera_indices RayBundle.origins CameraRayBundle.origins
       CameraRayBundle.directions CameraRayBundle.camera_indices
       CameraRayBundle.camera_index].
  split.
  - apply slice_Forall. unfold flatten. apply Forall_concat.
    rewrite Forall_map. apply Forall_forall. intros row _.
    rewrite Forall_map. apply Forall_forall. intros v _.
    rewrite Z.mul_1_l. now apply wrap64_in_range.
  - apply slice_length_eq. apply flatten_map_map_length.
Qed.

(** ** The further theorems at the sample inputs *)


Lemma get_weights_bounds_two_samples :
  exists weights,
    get_weights two_samples two_densities = Ok weights /\
    forall r, (r < 1)%nat ->
      (forall i, (i < 2)%nat -> 0 <= entry 0 weights r i <= 1) /\
      0 <= sum_below 2 (fun i => entry 0 weights r i) <= 1.
Proof.
  apply (get_weights_bounds two_samples [[1; 2]] two_densities 1 2);
    [reflexivity | apply shape2_intro; reflexivity
     | apply shape2_intro; reflexivity |].
  intros r i Hr Hi. assert (r = 0%nat) by lia. subst r.
  destruct i as [|[|i]]; [| |lia]; unfold entry, density; cbn; lra.
Defined.

Lemma get_weights_zero_two_samples :
  exists weights,
    get_weights two_samples two_densities = Ok weights /\
    entry 0 weights 0 1 = 0.
Proof.
  destruct (get_weights_zero two_samples [[1; 2]] two_densities 1 2)
    as (weights & Hw & Hzero);
    [reflexivity | apply shape2_intro; reflexivity
     | apply shape2_intro; reflexivity | |].
  { intros r i Hr Hi. assert (r = 0%nat) by lia. subst r.
    destruct i as [|[|i]]; [| |lia]; unfold entry, density; cbn; lra. }
  exists weights. split; [exact Hw|].
  apply Hzero; [lia | lia |]. right. reflexivity.
Defined.

Lemma get_weights_raises_examples :
  get_weights (RaySamples.mk None None None None None None) two_densities
    = Raise TypeError /\
  get_weights (RaySamples.mk None None None None None (Some [[1]; [2]]))
              [[mkVec1 3]; [mkVec1 3]; [mkVec1 3]]
    = Raise RuntimeError.
Proof.
  split.
  - apply (get_weights_raises (RaySamples.mk None None None None None None)
                              two_densities). reflexivity.
  - apply (get_weights_raises
             (RaySamples.mk None None None None None (Some [[1]; [2]]))
             [[mkVec1 3]; [mkVec1 3]; [mkVec1 3]]) with (deltas := [[1]; [2]]);
      [reflexivity | cbn; lia | cbn; lia | cbn; lia].
Defined.

Lemma get_ray_samples_camera_indices_two_rays :
  exists rs C,
    get_ray_samples two_rays [[0; 1]; [0; 2]] = Ok rs /\
    RaySamples.ts rs = Some [[0; 1]; [0; 2]] /\
    RaySamples.camera_indices rs = Some C /\
    shape2 2 2 C /\
    entry 0%Z C 0 1 = 7%Z /\ entry 0%Z C 1 0 = 8%Z.
Proof.
  destruct (get_ray_samples_camera_indices two_rays [[0; 1]; [0; 2]] 2 2)
    as (rs & Hrs & Hts & _ & Hsome);
    [reflexivity | reflexivity | apply shape2_intro; reflexivity |].
  destruct (Hsome [7%Z; 8%Z]) as (C & HC & Hshape & Hentry);
    [reflexivity | reflexivity |].
  exists rs, C. repeat (split; [assumption|]).
  split; [apply (Hentry 0%nat 1%nat); lia | apply (Hentry 1%nat 0%nat); lia].
Defined.

Lemma get_ray_samples_deltas_nonneg_unit_ray :
  exists rs D,
    get_ray_samples unit_ray unit_ray_ts = Ok rs /\
    RaySamples.deltas rs = Some D /\
    forall r i, (r < 1)%nat -> (i < 3)%nat -> 0 <= entry 0 D r i.
Proof.
  apply (get_ray_samples_deltas_nonneg unit_ray unit_ray_ts 1 3);
    [reflexivity | reflexivity | apply shape2_intro; reflexivity | lia |].
  intros r i Hr Hi. assert (r = 0%nat) by lia. subst r.
  destruct i as [|[|i]]; [| |lia]; unfold entry; cbn; lra.
Defined.

Lemma get_ray_samples_single_sample_unit_ray :
  exists rs,
    get_ray_samples unit_ray [[5]] = Ok rs /\
    RaySamples.deltas rs = Some [[]] /\
    get_weights rs [[mkVec1 3]] = Ok [[]].
Proof.
  destruct (get_ray_samples_single_sample unit_ray [[5]] 1 1)
    as (rs & Hrs & Hd & Hw);
    [reflexivity | reflexivity | apply shape2_intro; reflexivity | reflexivity |].
  exists rs. split; [exact Hrs|]. split; [exact Hd|].
  apply Hw. apply shape2_intro; reflexivity.
Defined.

Lemma get_ray_samples_raises_two_rays :
  get_ray_samples two_rays [[0]; [1]; [2]] = Raise RuntimeError.
Proof.
  apply (proj1 (get_ray_samples_raises two_rays [[0]; [1]; [2]])); cbn; lia.
Defined.

Lemma bundle_rows_two_rays : bundle_rows 2 two_rays.
Proof.
  repeat split.
Defined.

Lemma get_masked_ray_bundle_all_true_two_rays :
  get_masked_ray_bundle two_rays [true; true] = Ok two_rays.
Proof.
  apply (get_masked_ray_bundle_all_true two_rays 2 bundle_rows_two_rays).
Defined.

Lemma get_masked_ray_bundle_rows_two_rays :
  exists b,
    get_masked_ray_bundle two_rays [false; true] = Ok b /\
    bundle_rows 1 b.
Proof.
  apply (get_masked_ray_bundle_rows two_rays [false; true] 2
           bundle_rows_two_rays eq_refl).
Defined.

Lemma get_masked_ray_bundle_wrong_mask_two_rays :
  get_masked_ray_bundle two_rays [true] = Raise IndexError.
Proof.
  apply (get_masked_ray_bundle_wrong_mask two_rays [true]). cbn. lia.
Defined.

Lemma random_sample_ok_two_rays : random_sample_ok (len two_rays) 2 [1%nat; 0%nat].
Proof.
  split; [reflexivity|]. split.
  - constructor; [simpl; intros [H|[]]; discriminate|].
    constructor; [simpl; tauto | constructor].
  - repeat constructor.
Defined.


Lemma sample_all_rays_two_rays :
  exists b cams',
    sample [1%nat; 0%nat] two_rays (len two_rays) = Ok b /\
    Permutation (RayBundle.origins b) (RayBundle.origins two_rays) /\
    Permutation (RayBundle.directions b) (RayBundle.directions two_rays) /\
    RayBundle.camera_indices b = Some cams' /\
    Permutation cams' [7%Z; 8%Z].
Proof.
  apply (sample_all_rays [1%nat; 0%nat] two_rays [7%Z; 8%Z]
           eq_refl eq_refl eq_refl random_sample_ok_two_rays).
Defined.

Lemma sample_negative_unit_ray :
  sample [] unit_ray (-1) = Raise ValueError.
Proof.
  apply (sample_negative [] unit_ray (-1)). reflexivity.
Defined.

Lemma to_camera_ray_bundle_wrong_size_unit_ray :
  to_camera_ray_bundle unit_ray 2 3 = Raise RuntimeError.
Proof.
  apply (to_camera_ray_bundle_wrong_size unit_ray 2 3). cbn. lia.
Defined.

Lemma to_camera_ray_bundle_to_ray_bundle_two_rays :
  exists b,
    to_camera_ray_bundle two_rays 1 2 = Ok b /\
    shape2 1 2 (CameraRayBundle.origins b) /\
    shape2 1 2 (CameraRayBundle.directions b) /\
    CameraRayBundle.camera_index b = None /\
    CameraRayBundle.camera_indices b = Some [[7%Z; 8%Z]] /\
    RayBundle.origins (to_ray_bundle b) = RayBundle.origins two_rays /\
    RayBundle.directions (to_ray_bundle b) = RayBundle.directions two_rays /\
    RayBundle.camera_indices (to_ray_bundle b) = None.
Proof.
  apply (to_camera_ray_bundle_to_ray_bundle two_rays 1 2 bundle_rows_two_rays).
Defined.

Lemma get_num_rays_image_2_3 :
  get_num_rays image_2_3 = 6%nat /\
  len (to_ray_bundle image_2_3) = Z.of_nat (get_num_rays image_2_3).
Proof.
  apply (get_num_rays_to_ray_bundle image_2_3 2 3).
  apply shape2_intro; reflexivity.
Defined.

Lemma get_row_major_sliced_ray_bundle_app_image_2_3 :
  RayBundle.directions (get_row_major_sliced_ray_bundle image_2_3 0 4)
  ++ RayBundle.directions (get_row_major_sliced_ray_bundle image_2_3 4 8)
  = RayBundle.directions (get_row_major_sliced_ray_bundle image_2_3 0 8).
Proof.
  apply (get_row_major_sliced_ray_bundle_app image_2_3 0 4 8); lia.
Defined.

Lemma get_row_major_sliced_ray_bundle_whole_image_2_3 :
  RayBundle.origins (get_row_major_sliced_ray_bundle image_2_3 0 100)
    = RayBundle.origins (to_ray_bundle image_2_3) /\
  RayBundle.directions (get_row_major_sliced_ray_bundle image_2_3 0 100)
    = RayBundle.directions (to_ray_bundle image_2_3) /\
  RayBundle.camera_indices (get_row_major_sliced_ray_bundle image_2_3 0 100)
    = Some [4%Z; 4%Z; 4%Z; 4%Z; 4%Z; 4%Z].
Proof.
  apply (get_row_major_sliced_ray_bundle_whole image_2_3 2 3 100);
    try (apply shape2_intro; reflexivity).
  cbv. discriminate.
Defined.

Lemma get_row_major_sliced_ray_bundle_camera_image_2_3 :
  exists b cams,
    set_camera_indices image_2_3 5 = (b, Ok tt) /\
    RayBundle.camera_indices (get_row_major_sliced_ray_bundle b 1 4) = Some cams /\
    Forall (fun x => x = 5%Z) cams /\
    length cams =
      length (RayBundle.origins (get_row_major_sliced_ray_bundle b 1 4)).
Proof.
  apply (get_row_major_sliced_ray_bundle_camera image_2_3 5 1 4 in_int64_5).
Defined.
